(** * CuraBot: crisis detection and alert escalation

    A shallow embedding of [MentalHealth_API/src/crisis/detector.py] and
    [MentalHealth_API/src/alerts/{base,sms,telegram,dispatcher}.py], followed
    by the properties of that code.

    Conventions of the embedding.
    - A Python [str] is a [string]; [str.lower] and [str.isspace] act on
      the 7-bit characters as Python does, and a character above 127 is
      kept as it is and is no white space.
    - A Python exception is a value of [exn]; code that may raise returns a
      [result]; [try ... except Exception] is [try_except].
    - A Python [float] is an element of a type carrying the operations numpy
      uses ([Float64]); two instances are given, IEEE binary64 and the reals.
    - Calls that leave the process (embedding provider, Twilio, Telegram,
      the cache file) are fields of records passed in explicitly; calls to
      alert providers are recorded in a trace. *)

From Stdlib Require Import Floats.
From Stdlib Require Import Reals Lra Psatz.
From Stdlib Require Import String Ascii List Bool Arith Lia.
Import ListNotations.

Local Open Scope string_scope.
Local Open Scope list_scope.
Local Open Scope nat_scope.

(* ================================================================== *)
(** ** Python values, exceptions and control flow *)

Inductive exn : Type :=
| ValueError
| NameError
| AttributeError
| KeyError
| TypeError
| OSError
| JSONDecodeError
| ProviderError (msg : string).

Inductive result (A : Type) : Type :=
| Ok (a : A)
| Raise (e : exn).

Arguments Ok {A} a.
Arguments Raise {A} e.

Definition bind {A B : Type} (m : result A) (k : A -> result B) : result B :=
  match m with
  | Ok a => k a
  | Raise e => Raise e
  end.

Notation "x <- m ;; k" := (bind m (fun x => k))
  (at level 61, m at next level, right associativity).

(** [try: m  except Exception as e: h e] *)
Definition try_except {A : Type} (m : result A) (h : exn -> result A) : result A :=
  match m with
  | Ok a => Ok a
  | Raise e => h e
  end.

(** Truth value of an optional string ([None] and [""] are false). *)
Definition truthy (v : option string) : bool :=
  match v with
  | None => false
  | Some EmptyString => false
  | Some (String _ _) => true
  end.

(* ------------------------------------------------------------------ *)
(** *** Strings *)

Definition is_upper (c : ascii) : bool :=
  let n := nat_of_ascii c in (65 <=? n) && (n <=? 90).

(** [str.lower] on one character. *)
Definition lower_char (c : ascii) : ascii :=
  if is_upper c then ascii_of_nat (nat_of_ascii c + 32) else c.

(** [str.lower] *)
Fixpoint lower (s : string) : string :=
  match s with
  | EmptyString => EmptyString
  | String c s' => String (lower_char c) (lower s')
  end.

(** [str.isspace] on one character: TAB, LF, VT, FF, CR, FS, GS, RS, US and
    the space. *)
Definition isspace (c : ascii) : bool :=
  let n := nat_of_ascii c in
  ((9 <=? n) && (n <=? 13)) || ((28 <=? n) && (n <=? 32)).

(** [str.split()] with no separator: the maximal runs of characters that are
    not white space, in order.  [cur] is the word being read. *)
Fixpoint split_from (cur : string) (s : string) : list string :=
  match s with
  | EmptyString =>
      match cur with
      | EmptyString => []
      | _ => [cur]
      end
  | String c s' =>
      if isspace c then
        match cur with
        | EmptyString => split_from EmptyString s'
        | _ => cur :: split_from EmptyString s'
        end
      else split_from (cur ++ String c EmptyString) s'
  end.

Definition split (s : string) : list string := split_from EmptyString s.

(** [sep.join(ls)] *)
Definition join (sep : string) (ls : list string) : string := String.concat sep ls.

(** [l[i:j]] for [0 <= i], [0 <= j]. *)
Definition slice {A : Type} (l : list A) (i j : nat) : list A :=
  firstn (j - i) (skipn i l).

(** [range(start, stop, step)] for non-negative arguments: the values
    [start + k*step] below [stop]; a zero step raises [ValueError]. *)
Definition range_len (start stop step : nat) : nat :=
  (stop - start + (step - 1)) / step.

Definition range (start stop step : nat) : result (list nat) :=
  if step =? 0 then Raise ValueError
  else Ok (map (fun k => start + k * step) (seq 0 (range_len start stop step))).

(** A pattern made of letters and spaces only has no regular-expression
    operator in it: [re.search] then looks for it as a substring. *)
Definition is_letter_or_space (c : ascii) : bool :=
  let n := nat_of_ascii c in
  (n =? 32) || ((65 <=? n) && (n <=? 90)) || ((97 <=? n) && (n <=? 122)).

Fixpoint literal_pattern (p : string) : bool :=
  match p with
  | EmptyString => true
  | String c p' => is_letter_or_space c && literal_pattern p'
  end.

(** [re.search(pattern, s)] as a truth value, for a literal pattern. *)
Fixpoint re_search (pattern s : string) : bool :=
  prefix pattern s ||
  match s with
  | EmptyString => false
  | String _ s' => re_search pattern s'
  end.

(* ------------------------------------------------------------------ *)
(** *** Floats and the two numpy calls *)

(** The float operations the detector reaches through numpy. *)
Class Float64 (F : Type) : Type := {
  fzero : F;                       (* 0 *)
  fthreshold : F;                  (* 0.85 *)
  fadd : F -> F -> F;
  fmul : F -> F -> F;
  fdiv : F -> F -> F;
  fsqrt : F -> F;
  feqb : F -> F -> bool;           (* == *)
  fgtb : F -> F -> bool            (* >  *)
}.

(** IEEE 754 binary64, as CPython and numpy compute. *)
#[export] Instance ieee : Float64 float := {
  fzero := 0%float;
  fthreshold := 0x1.b333333333333p-1%float;  (* the double nearest 0.85 *)
  fadd := PrimFloat.add;
  fmul := PrimFloat.mul;
  fdiv := PrimFloat.div;
  fsqrt := PrimFloat.sqrt;
  feqb := PrimFloat.eqb;
  fgtb := fun x y => PrimFloat.ltb y x
}.

(** Exact arithmetic: the reals. *)
#[export] Instance exact : Float64 R := {
  fzero := 0%R;
  fthreshold := (85 / 100)%R;
  fadd := Rplus;
  fmul := Rmult;
  fdiv := Rdiv;
  fsqrt := sqrt;
  feqb := fun x y => if Req_dec_T x y then true else false;
  fgtb := fun x y => if Rlt_dec y x then true else false
}.

Section Numpy.
Context {F : Type} `{Float64 F}.

(** Sum of the products of the paired entries, from the left.  (numpy may
    add the products in another order; the sums of the examples below are
    exact in binary64, so the order does not show.) *)
Fixpoint sum_products (acc : F) (a b : list F) : F :=
  match a, b with
  | x :: a', y :: b' => sum_products (fadd acc (fmul x y)) a' b'
  | _, _ => acc
  end.

(** [np.dot(a, b)] on two one-dimensional vectors: shapes that are not
    aligned raise [ValueError]. *)
Definition np_dot (a b : list F) : result F :=
  if length a =? length b then Ok (sum_products fzero a b)
  else Raise ValueError.

(** [np.linalg.norm(v)]: [sqrt(v.dot(v))]. *)
Definition np_linalg_norm (v : list F) : F :=
  fsqrt (sum_products fzero v v).

End Numpy.

(* ================================================================== *)
(** ** crisis/detector.py *)

(** [embeddings_model]: an object with [embed_query(text) -> List[float]],
    which may raise. *)
Record EmbeddingsModel (F : Type) : Type := {
  embed_query : string -> result (list F)
}.
Arguments embed_query {F} _ _.

Record CrisisDetector (F : Type) : Type := {
  crisis_keywords : list string;
  semantic_phrases : list string;
  embeddings_model : option (EmbeddingsModel F);
  phrase_embeddings : list (list F)
}.
Arguments crisis_keywords {F} _.
Arguments semantic_phrases {F} _.
Arguments embeddings_model {F} _.
Arguments phrase_embeddings {F} _.

(** The two lists [__init__] sets. *)
Definition default_crisis_keywords : list string :=
  [ "kill myself";
    "suicid";
    "end my life";
    "want to die";
    "hurt myself";
    "slit my wrist";
    "overdose";
    "no reason to live";
    "better off dead";
    "I quit" ].

Definition default_semantic_phrases : list string :=
  [ "I don't want to live anymore";
    "The pain is too much to bear, I want out";
    "I'm planning to end it all";
    "Goodbye everyone, I'm done";
    "There is no hope for me";
    "I am going to jump off a bridge";
    "I have a gun and I'm going to use it" ].

(** [CrisisDetector(embeddings_model)] as [__init__] leaves it; the
    background thread may later fill [phrase_embeddings]. *)
Definition new_detector {F : Type} (model : option (EmbeddingsModel F)) : CrisisDetector F :=
  {| crisis_keywords := default_crisis_keywords;
     semantic_phrases := default_semantic_phrases;
     embeddings_model := model;
     phrase_embeddings := [] |}.

Definition lexical_reason : string :=
  "User is expressing suicidal thoughts or self-harm intent".

Definition semantic_reason : string :=
  "User content indicates severe distress or crisis intent".

(** The body of the [for i in range(0, len(words), step)] loop of
    [_chunk_text], with its [break]. *)
Fixpoint chunk_loop (words : list string) (window_size : nat) (offsets : list nat)
  : list string :=
  match offsets with
  | [] => []
  | i :: rest =>
      let chunk := join " " (slice words i (i + window_size)) in
      if length words <=? i + window_size then [chunk]
      else chunk :: chunk_loop words window_size rest
  end.

Definition _chunk_text (text : string) (window_size step : nat) : result (list string) :=
  let words := split text in
  if length words <=? window_size then Ok [text]
  else
    offsets <- range 0 (length words) step ;;
    Ok (chunk_loop words window_size offsets).

Definition default_window_size : nat := 15.
Definition default_step : nat := 10.

Section Detector.
Context {F : Type} `{Float64 F}.

(** The variables the semantic pass updates; [threshold] is bound by the
    first chunk. *)
Record scan_state : Type := {
  max_score_overall : F;
  best_phrase : string;
  threshold : option F
}.

Definition scan_init : scan_state :=
  {| max_score_overall := fzero; best_phrase := ""; threshold := None |}.

(** The inner loop, over [zip(self.phrase_embeddings, self.semantic_phrases)]. *)
Fixpoint compare_phrases (user_vector : list F) (user_norm : F)
         (pairs : list (list F * string)) (st : scan_state) : result scan_state :=
  match pairs with
  | [] => Ok st
  | (phrase_vec, phrase_text) :: rest =>
      let phrase_norm := np_linalg_norm phrase_vec in
      if feqb phrase_norm fzero then compare_phrases user_vector user_norm rest st
      else
        d <- np_dot user_vector phrase_vec ;;
        let score := fdiv d (fmul user_norm phrase_norm) in
        if fgtb score (max_score_overall st) then
          compare_phrases user_vector user_norm rest
            {| max_score_overall := score;
               best_phrase := phrase_text;
               threshold := threshold st |}
        else compare_phrases user_vector user_norm rest st
  end.

(** The outer loop, over the chunks. *)
Fixpoint scan_chunks (model : EmbeddingsModel F) (pairs : list (list F * string))
         (chunks : list string) (st : scan_state) : result scan_state :=
  match chunks with
  | [] => Ok st
  | chunk :: rest =>
      user_vector <- embed_query model chunk ;;
      let st1 := {| max_score_overall := max_score_overall st;
                    best_phrase := best_phrase st;
                    threshold := Some fthreshold |} in
      let user_norm := np_linalg_norm user_vector in
      if feqb user_norm fzero then scan_chunks model pairs rest st1
      else
        st2 <- compare_phrases user_vector user_norm pairs st1 ;;
        scan_chunks model pairs rest st2
  end.

(** The body of the [try] in [detect]: [Some r] when it returns [r],
    [None] when control leaves it at its end. *)
Definition semantic_pass (self : CrisisDetector F) (model : EmbeddingsModel F)
           (text : string) : result (option (bool * string)) :=
  chunks <- _chunk_text text default_window_size default_step ;;
  st <- scan_chunks model
          (combine (phrase_embeddings self) (semantic_phrases self))
          chunks scan_init ;;
  match threshold st with
  | None => Raise NameError
  | Some t =>
      if fgtb (max_score_overall st) t then Ok (Some (true, semantic_reason))
      else Ok None
  end.

(** The [for pattern in self.crisis_keywords] loop of [detect]. *)
Definition lexical_match (self : CrisisDetector F) (text : string) : bool :=
  let text_lower := lower text in
  existsb (fun pattern => re_search pattern text_lower) (crisis_keywords self).

Definition semantic_enabled (self : CrisisDetector F) : option (EmbeddingsModel F) :=
  match embeddings_model self, phrase_embeddings self with
  | Some model, _ :: _ => Some model
  | _, _ => None
  end.

Definition detect (self : CrisisDetector F) (text : string) : result (bool * string) :=
  if lexical_match self text then Ok (true, lexical_reason)
  else
    match semantic_enabled self with
    | Some model =>
        r <- try_except (semantic_pass self model text) (fun _ => Ok None) ;;
        match r with
        | Some answer => Ok answer
        | None => Ok (false, "")
        end
    | None => Ok (false, "")
    end.

End Detector.

Arguments scan_state F : clear implicits.

(* ================================================================== *)
(** ** The embedding cache of crisis/detector.py *)

Module Cache.

(** What [json.load] returns and [json.dump] accepts.  A number is kept
    as its literal; an object is the list of its members. *)
#[warning="-register-all"] Inductive json : Type :=
| JNull
| JBool (b : bool)
| JNumber (literal : string)
| JString (s : string)
| JArray (items : list json)
| JObject (members : list (string * json)).

(** The [json] module: [loads] is [json.load] on the text read, and
    [iterencode] the chunks [json.dump] writes one after the other,
    with the exception that ends them early, if any. *)
Record JsonLib : Type := {
  loads : string -> result json;
  iterencode : json -> list string * option exn
}.

(** [CACHE_FILE] on disk. *)
Inductive file : Type :=
| Unreadable (e : exn)          (* [open] or [read] raises [e] *)
| Contents (text : string).

Record disk : Type := {
  cache_file : option file;     (* [None]: [os.path.exists] is false *)
  writable : bool               (* [open(CACHE_FILE, 'w')] succeeds *)
}.

(** The embedding provider as [_generate_embeddings] uses it;
    [embed_documents] is [None] when the object has no such attribute. *)
Record EmbeddingsModel : Type := {
  embed_documents : option (list string -> result json);
  embed_query : string -> result json
}.

(** The attributes of the detector the cache code reads and writes.
    [phrase_embeddings] is whatever value was generated or loaded. *)
Record CrisisDetector : Type := {
  semantic_phrases : list string;
  embeddings_model : option EmbeddingsModel;
  phrase_embeddings : json
}.

Definition set_phrase_embeddings (self : CrisisDetector) (v : json) : CrisisDetector :=
  {| semantic_phrases := semantic_phrases self;
     embeddings_model := embeddings_model self;
     phrase_embeddings := v |}.

(** [bool(v)]; a number is false when it is one of the zeros [json] writes. *)
Definition json_truthy (v : json) : bool :=
  match v with
  | JNull => false
  | JBool b => b
  | JNumber l => negb (existsb (String.eqb l) ["0"; "0.0"; "-0.0"])
  | JString s => negb (String.eqb s "")
  | JArray items => negb (Nat.eqb (length items) 0)
  | JObject members => negb (Nat.eqb (length members) 0)
  end.

(** [data.get(key)]: only a dict has the method. *)
Fixpoint lookup (key : string) (members : list (string * json)) : option json :=
  match members with
  | [] => None
  | (k, v) :: rest => if String.eqb k key then Some v else lookup key rest
  end.

Definition dict_get (data : json) (key : string) : result (option json) :=
  match data with
  | JObject members => Ok (lookup key members)
  | _ => Raise AttributeError
  end.

(** [data[key]] *)
Definition getitem (data : json) (key : string) : result json :=
  match data with
  | JObject members =>
      match lookup key members with
      | Some v => Ok v
      | None => Raise KeyError
      end
  | _ => Raise TypeError
  end.

(** [items == phrases] for a list of JSON values against a list of [str]. *)
Fixpoint items_eqb (items : list json) (phrases : list string) : bool :=
  match items, phrases with
  | [], [] => true
  | JString s :: items', p :: phrases' => String.eqb s p && items_eqb items' phrases'
  | _, _ => false
  end.

(** [v == self.semantic_phrases] for [v = data.get("phrases")]. *)
Definition equals_phrases (v : option json) (phrases : list string) : bool :=
  match v with
  | Some (JArray items) => items_eqb items phrases
  | _ => false
  end.

(** [with open(CACHE_FILE, 'r') as f: data = json.load(f)] *)
Definition read_json (J : JsonLib) (f : file) : result json :=
  match f with
  | Unreadable e => Raise e
  | Contents text => loads J text
  end.

(** [len(v)]: lists, strings and dicts have a length, [None], numbers and
    booleans raise [TypeError].  The length of a string is not used. *)
Definition json_len (v : json) : result nat :=
  match v with
  | JArray items => Ok (length items)
  | JObject members => Ok (length members)
  | JString s => Ok (String.length s)
  | JNull | JBool _ | JNumber _ => Raise TypeError
  end.

(** The body of the [try] of [_load_from_cache], with the detector it
    leaves: [Ok true] when it ends in [return True], [Ok false] when the
    cache is stale and control goes on to the [return False] after the
    [try].  The assignment to [self.phrase_embeddings] comes before the
    [len(self.phrase_embeddings)] of the log message, so an exception
    raised there leaves the attribute assigned. *)
Definition load_body (J : JsonLib) (self : CrisisDetector) (f : file)
  : result bool * CrisisDetector :=
  match read_json J f with
  | Raise e => (Raise e, self)
  | Ok data =>
      match dict_get data "phrases" with
      | Raise e => (Raise e, self)
      | Ok stored =>
          if equals_phrases stored (semantic_phrases self) then
            match getitem data "embeddings" with
            | Raise e => (Raise e, self)
            | Ok v =>
                let self1 := set_phrase_embeddings self v in
                match json_len (phrase_embeddings self1) with
                | Raise e => (Raise e, self1)
                | Ok _ => (Ok true, self1)
                end
            end
          else (Ok false, self)
      end
  end.

Definition _load_from_cache (J : JsonLib) (self : CrisisDetector) (d : disk)
  : bool * CrisisDetector :=
  match cache_file d with
  | None => (false, self)
  | Some f =>
      match load_body J self f with
      | (Ok loaded, self1) => (loaded, self1)
      | (Raise _, self1) => (false, self1)      (* [except Exception] *)
      end
  end.

Definition with_contents (d : disk) (text : string) : disk :=
  {| cache_file := Some (Contents text); writable := writable d |}.

(** The entry [_save_to_cache] serialises. *)
Definition cache_entry (self : CrisisDetector) : json :=
  JObject [ ("phrases", JArray (map JString (semantic_phrases self)));
            ("embeddings", phrase_embeddings self) ].

(** The file object [open(CACHE_FILE, 'w')] returns is buffered: what
    [f.write] is given reaches the file when a buffer fills up and when
    the file is closed.  For the chunks written, a [Buffering] gives the
    lengths of the text that reached the file at each flush before the
    close, in the order of the flushes. *)
Definition Buffering : Type := list string -> list nat.

(** [_save_to_cache]: the states of the disk it goes through, the first
    being the one it starts from and the last the one it leaves.
    [open(CACHE_FILE, 'w')] creates the file or cuts it to length zero,
    [json.dump] writes the chunks to the buffered file, and leaving the
    [with] block flushes and closes it, also when a chunk could not be
    produced; every exception is caught. *)
Definition _save_to_cache (J : JsonLib) (B : Buffering) (self : CrisisDetector) (d : disk)
  : list disk :=
  if writable d then
    let chunks := fst (iterencode J (cache_entry self)) in
    let text := String.concat "" chunks in
    d :: with_contents d ""
      :: map (fun n => with_contents d (substring 0 n text)) (B chunks)
      ++ [with_contents d text]
  else [d].

(** The state the function leaves. *)
Definition final_disk (states : list disk) (d : disk) : disk := last states d.

(** The list comprehension [[embed_query(p) for p in phrases]]. *)
Fixpoint embed_each (model : EmbeddingsModel) (phrases : list string)
  : result (list json) :=
  match phrases with
  | [] => Ok []
  | p :: rest =>
      v <- embed_query model p ;;
      vs <- embed_each model rest ;;
      Ok (v :: vs)
  end.

Definition _generate_embeddings (self : CrisisDetector) : json :=
  match embeddings_model self with
  | None => JArray []       (* [hasattr(None, ...)] is false, [None.embed_query] raises *)
  | Some model =>
      let body :=
        match embed_documents model with
        | Some f => f (semantic_phrases self)
        | None => vs <- embed_each model (semantic_phrases self) ;; Ok (JArray vs)
        end in
      match try_except body (fun _ => Ok (JArray [])) with
      | Ok v => v
      | Raise _ => JArray []
      end
  end.

(** [_initialize_embeddings]: the detector and the disk it leaves. *)
Definition _initialize_embeddings (J : JsonLib) (B : Buffering) (self : CrisisDetector)
           (d : disk) : CrisisDetector * disk :=
  let (loaded, self1) := _load_from_cache J self d in
  if loaded then (self1, d)
  else
    let embeddings := _generate_embeddings self1 in
    if json_truthy embeddings then
      let self2 := set_phrase_embeddings self1 embeddings in
      (self2, final_disk (_save_to_cache J B self2 d) d)
    else (self1, d).

End Cache.

(* ================================================================== *)
(** ** alerts/base.py, alerts/sms.py, alerts/telegram.py, alerts/dispatcher.py *)

(** A payload [dict]: keys to [str] or [None]. *)
Definition payload : Type := list (string * option string).

(** [data.get(key)] *)
Fixpoint payload_get (data : payload) (key : string) : option string :=
  match data with
  | [] => None
  | (k, v) :: rest => if String.eqb k key then v else payload_get rest key
  end.

(** [f"{v}"] *)
Definition fmt (v : option string) : string :=
  match v with
  | Some s => s
  | None => "None"
  end.

Inductive channel : Type := SMS | Telegram.

Inductive log_level : Type := INFO | WARNING | ERROR | CRITICAL.

(** What an alert leaves behind: the calls of [send_alert] the dispatcher
    makes, the requests that leave the process, and the log records. *)
Inductive event : Type :=
| Invoked (ch : channel) (data : payload)
| TwilioCreate (messaging_service_sid : option string) (body : option string) (to : string)
| HttpPost (url : string) (chat_id : string) (text : option string) (parse_mode : string)
| Logged (level : log_level).

(** The services an alert reaches; each call may raise. *)
Record Network : Type := {
  twilio_client : string -> string -> result unit;
  messages_create : option string -> option string -> string -> result string;
  requests_post : string -> string -> option string -> string -> result (nat * string)
}.

(** Code that reads the network and leaves events. *)
Definition IO (A : Type) : Type := Network -> result A * list event.

Definition ret {A : Type} (a : A) : IO A := fun _ => (Ok a, []).

Definition raise {A : Type} (e : exn) : IO A := fun _ => (Raise e, []).

Definition io_bind {A B : Type} (m : IO A) (k : A -> IO B) : IO B :=
  fun net =>
    match m net with
    | (Ok a, t1) => let (r, t2) := k a net in (r, t1 ++ t2)
    | (Raise e, t1) => (Raise e, t1)
    end.

Notation "x <~ m ;; k" := (io_bind m (fun x => k))
  (at level 61, m at next level, right associativity).
Notation "m ;;; k" := (io_bind m (fun _ => k))
  (at level 61, right associativity).

Definition emit (ev : event) : IO unit := fun _ => (Ok tt, [ev]).

Definition log (level : log_level) : IO unit := emit (Logged level).

(** [try: m  except Exception as e: h e] *)
Definition io_try {A : Type} (m : IO A) (h : exn -> IO A) : IO A :=
  fun net =>
    match m net with
    | (Ok a, t1) => (Ok a, t1)
    | (Raise e, t1) => let (r, t2) := h e net in (r, t1 ++ t2)
    end.

(** [AlertProvider.send_alert(self, data) -> bool] *)
Class AlertProvider (P : Type) : Type := {
  send_alert : P -> payload -> IO bool
}.

(* ------------------------------------------------------------------ *)
(** *** sms.py *)

Record TwilioProvider : Type := {
  account_sid : option string;
  auth_token : option string;
  messaging_service_sid : option string
}.

(** The number the message goes to: [+91] is put in front of a number that
    does not start with [+]. *)
Definition to_number (phone_number : string) : string :=
  if negb (prefix "+" phone_number) then ("+91" ++ phone_number)%string
  else phone_number.

(** The argument [to] of [messages.create]; [None] has no [startswith]. *)
Definition twilio_to (phone_number : option string) : IO string :=
  match phone_number with
  | None => raise AttributeError
  | Some p => ret (to_number p)
  end.

Definition twilio_send_alert (self : TwilioProvider) (data : payload) : IO bool :=
  let phone_number := payload_get data "phone_number" in
  let message_body := payload_get data "message" in
  if negb (truthy (account_sid self)) || negb (truthy (auth_token self)) then
    log ERROR ;;; ret false
  else
    io_try
      (_ <~ (fun net => (twilio_client net (fmt (account_sid self)) (fmt (auth_token self)), [])) ;;
       log INFO ;;;
       to <~ twilio_to phone_number ;;
       emit (TwilioCreate (messaging_service_sid self) message_body to) ;;;
       _ <~ (fun net => (messages_create net (messaging_service_sid self) message_body to, [])) ;;
       log INFO ;;;
       ret true)
      (fun _ => log ERROR ;;; ret false).

#[export] Instance TwilioProvider_AlertProvider : AlertProvider TwilioProvider := {
  send_alert := twilio_send_alert
}.

(* ------------------------------------------------------------------ *)
(** *** telegram.py *)

Record TelegramProvider : Type := {
  bot_token : option string;
  chat_id : option string
}.

Definition base_url (self : TelegramProvider) : string :=
  ("https://api.telegram.org/bot" ++ fmt (bot_token self) ++ "/sendMessage")%string.

Definition telegram_send_alert (self : TelegramProvider) (data : payload) : IO bool :=
  let message := payload_get data "message" in
  if negb (truthy (bot_token self)) || negb (truthy (chat_id self)) then
    log ERROR ;;; ret false
  else
    io_try
      (emit (HttpPost (base_url self) (fmt (chat_id self)) message "Markdown") ;;;
       response <~ (fun net =>
                      (requests_post net (base_url self) (fmt (chat_id self)) message "Markdown", [])) ;;
       if fst response =? 200 then log INFO ;;; ret true
       else log ERROR ;;; ret false)
      (fun _ => log ERROR ;;; ret false).

#[export] Instance TelegramProvider_AlertProvider : AlertProvider TelegramProvider := {
  send_alert := telegram_send_alert
}.

(* ------------------------------------------------------------------ *)
(** *** dispatcher.py *)

Record AlertDispatcher (P1 P2 : Type) : Type := {
  sms_provider : P1;
  telegram_provider : P2;
  helpline_number : option string
}.
Arguments sms_provider {P1 P2} _.
Arguments telegram_provider {P1 P2} _.
Arguments helpline_number {P1 P2} _.

(** The symbols of the Telegram message, as their UTF-8 bytes. *)
Definition siren : string := String "240" (String "159" (String "154" (String "168" ""))).
Definition bust : string := String "240" (String "159" (String "145" (String "164" ""))).
Definition pin : string := String "240" (String "159" (String "147" (String "141" ""))).
Definition warning_sign : string :=
  String "226" (String "154" (String "160" (String "239" (String "184" (String "143" ""))))).
Definition speech : string := String "240" (String "159" (String "146" (String "172" ""))).
Definition newline : string := String "010" "".

Definition sms_message (user_name reason location short_message : string) : string :=
  ("CRISIS ALERT: User " ++ user_name ++ " at " ++ location ++ ". Reason: " ++ reason
   ++ ". Msg: " ++ short_message)%string.

Definition telegram_message (user_name reason location short_message : string) : string :=
  (siren ++ " *CRISIS DETECTED* " ++ siren ++ newline ++ newline
   ++ bust ++ " *User:* " ++ user_name ++ newline
   ++ pin ++ " *Location:* " ++ location ++ newline
   ++ warning_sign ++ " *Reason:* " ++ reason ++ newline
   ++ speech ++ " *Message:* " ++ short_message ++ newline ++ newline
   ++ "Please take immediate action.")%string.

(** A call of a provider's [send_alert], recorded. *)
Definition invoke {P : Type} `{AlertProvider P} (ch : channel) (p : P) (data : payload)
  : IO bool :=
  emit (Invoked ch data) ;;; send_alert p data.

Definition trigger_alert {P1 P2 : Type} `{AlertProvider P1} `{AlertProvider P2}
           (self : AlertDispatcher P1 P2)
           (user_name reason location short_message : string) : IO unit :=
  let sms_data :=
    [ ("phone_number", helpline_number self);
      ("message", Some (sms_message user_name reason location short_message)) ] in
  sms_success <~
    (if truthy (helpline_number self) then
       log INFO ;;; invoke SMS (sms_provider self) sms_data
     else log WARNING ;;; ret false) ;;
  if negb sms_success then
    log WARNING ;;;
    let telegram_data :=
      [ ("message", Some (telegram_message user_name reason location short_message)) ] in
    telegram_success <~ invoke Telegram (telegram_provider self) telegram_data ;;
    if negb telegram_success then log CRITICAL else ret tt
  else log INFO.

(* ================================================================== *)
(** ** Notions used to state the properties *)

(** No character of [s] is white space. *)
Fixpoint nospace (s : string) : bool :=
  match s with
  | EmptyString => true
  | String c s' => negb (isspace c) && nospace s'
  end.

(** What [str.split()] calls a word. *)
Definition word (w : string) : Prop := w <> EmptyString /\ nospace w = true.

(** [pattern] occurs in [text] when letter case is ignored on both sides. *)
Definition contains_ignoring_case (text pattern : string) : bool :=
  re_search (lower pattern) (lower text).

(** The semantic pass as the specification words it: a chunk whose
    embedding cannot be computed is skipped, a comparison that cannot be
    computed is skipped, and the scan goes on with what remains. *)
Section SkippingScan.
Context {F : Type} `{Float64 F}.

Fixpoint compare_phrases_skipping (user_vector : list F) (user_norm : F)
         (pairs : list (list F * string)) (st : scan_state F) : scan_state F :=
  match pairs with
  | [] => st
  | (phrase_vec, phrase_text) :: rest =>
      let phrase_norm := np_linalg_norm phrase_vec in
      if feqb phrase_norm fzero then compare_phrases_skipping user_vector user_norm rest st
      else
        match np_dot user_vector phrase_vec with
        | Raise _ => compare_phrases_skipping user_vector user_norm rest st
        | Ok d =>
            let score := fdiv d (fmul user_norm phrase_norm) in
            if fgtb score (max_score_overall st) then
              compare_phrases_skipping user_vector user_norm rest
                {| max_score_overall := score;
                   best_phrase := phrase_text;
                   threshold := threshold st |}
            else compare_phrases_skipping user_vector user_norm rest st
        end
  end.

Fixpoint scan_chunks_skipping (model : EmbeddingsModel F) (pairs : list (list F * string))
         (chunks : list string) (st : scan_state F) : scan_state F :=
  match chunks with
  | [] => st
  | chunk :: rest =>
      match embed_query model chunk with
      | Raise _ => scan_chunks_skipping model pairs rest st
      | Ok user_vector =>
          let user_norm := np_linalg_norm user_vector in
          if feqb user_norm fzero then scan_chunks_skipping model pairs rest st
          else
            scan_chunks_skipping model pairs rest
              (compare_phrases_skipping user_vector user_norm pairs st)
      end
  end.

(** Whether the scan so worded finds a score above the threshold. *)
Definition skipping_scan_finds_crisis (self : CrisisDetector F) (model : EmbeddingsModel F)
           (chunks : list string) : bool :=
  fgtb (max_score_overall
          (scan_chunks_skipping model
             (combine (phrase_embeddings self) (semantic_phrases self)) chunks scan_init))
       fthreshold.

(** The two variables of the scan a caller can observe agree. *)
Definition same_scores (st st' : scan_state F) : Prop :=
  max_score_overall st = max_score_overall st' /\ best_phrase st = best_phrase st'.

(** The chunks whose vector has norm zero. *)
Definition zero_norm_chunk (model : EmbeddingsModel F) (chunk : string) : bool :=
  match embed_query model chunk with
  | Ok v => feqb (np_linalg_norm v) fzero
  | Raise _ => false
  end.

(** The reference vectors of norm zero. *)
Definition zero_norm_phrase (pair : list F * string) : bool :=
  feqb (np_linalg_norm (fst pair)) fzero.

(** [score] is the quotient the scan computes for [chunk] and a pair of
    [pairs], both vectors passing the tests on their norms. *)
Definition score_of (model : EmbeddingsModel F) (pairs : list (list F * string))
           (chunks : list string) (score : F) (phrase_text : string) : Prop :=
  exists chunk user_vector phrase_vec d,
    In chunk chunks /\
    embed_query model chunk = Ok user_vector /\
    In (phrase_vec, phrase_text) pairs /\
    feqb (np_linalg_norm user_vector) fzero = false /\
    feqb (np_linalg_norm phrase_vec) fzero = false /\
    np_dot user_vector phrase_vec = Ok d /\
    score = fdiv d (fmul (np_linalg_norm user_vector) (np_linalg_norm phrase_vec)).

End SkippingScan.

(** Two outcomes of a scan that agree on what a caller can observe. *)
Definition result_same_scores {F : Type} (r r' : result (scan_state F)) : Prop :=
  match r, r' with
  | Ok st, Ok st' => same_scores st st'
  | Raise _, Raise _ => True
  | _, _ => False
  end.

(** Sum of the products of the paired entries, over the reals. *)
Fixpoint rdot (a b : list R) : R :=
  match a, b with
  | x :: a', y :: b' => (x * y + rdot a' b')%R
  | _, _ => 0%R
  end.

(* ------------------------------------------------------------------ *)
(** *** Data of the examples *)

(** A message of sixteen words, none of them a crisis keyword. *)
Definition long_text : string :=
  "one two three four five six seven eight nine ten eleven twelve thirteen fourteen fifteen sixteen".

Definition first_window : string :=
  "one two three four five six seven eight nine ten eleven twelve thirteen fourteen fifteen".

Definition second_window : string :=
  "eleven twelve thirteen fourteen fifteen sixteen".

(** A provider that fails on the first window and answers [[1.0, 0.0]]
    on every other text. *)
Definition flaky_model : EmbeddingsModel float :=
  {| embed_query := fun chunk =>
       if String.eqb chunk first_window then Raise (ProviderError "timed out")
       else Ok [1%float; 0%float] |}.

Definition flaky_detector : CrisisDetector float :=
  {| crisis_keywords := default_crisis_keywords;
     semantic_phrases := default_semantic_phrases;
     embeddings_model := Some flaky_model;
     phrase_embeddings := [[1%float; 0%float]] |}.

(** The mocked provider of [tests/test_alerts_mock.py]. *)
Definition mock_embeddings : EmbeddingsModel float :=
  {| embed_query := fun _ => Ok [1%float; 0%float] |}.

Definition mock_detector : CrisisDetector float :=
  {| crisis_keywords := default_crisis_keywords;
     semantic_phrases := ["Mock phrase"];
     embeddings_model := Some mock_embeddings;
     phrase_embeddings := [[0x1.ccccccccccccdp-1%float; 0x1.999999999999ap-3%float]] |}.

(** The vector [[1.0, 1.0, 1.0]]. *)
Definition ones : list float := [1%float; 1%float; 1%float].

(* ------------------------------------------------------------------ *)
(** *** Data of the cache examples *)

Module CacheExamples.
Import Cache.

Definition double_quote : string := String "034" "".

(** [json.dumps] with the default separators, for strings that need no
    escape. *)
Fixpoint dumps (v : json) : string :=
  match v with
  | JNull => "null"
  | JBool true => "true"
  | JBool false => "false"
  | JNumber literal => literal
  | JString s => double_quote ++ s ++ double_quote
  | JArray items => "[" ++ join ", " (map dumps items) ++ "]"
  | JObject members =>
      "{" ++ join ", "
               (map (fun member =>
                       match member with
                       | (k, x) => double_quote ++ k ++ double_quote ++ ": " ++ dumps x
                       end) members)
          ++ "}"
  end%string.

(** A [json] module for the examples: it writes a value in one chunk and
    reads back the documents of [known], any other text being an error. *)
Definition json_for (known : list json) : JsonLib :=
  {| loads := fun text =>
       match find (fun j => String.eqb (dumps j) text) known with
       | Some j => Ok j
       | None => Raise JSONDecodeError
       end;
     iterencode := fun v => ([dumps v], None) |}.

Definition two_phrases : list string := ["There is no hope for me"; "Goodbye everyone"].

Definition old_embeddings : json :=
  JArray [JArray [JNumber "0.5"; JNumber "0.25"]; JArray [JNumber "1.0"; JNumber "0.0"]].

Definition new_embeddings : json :=
  JArray [JArray [JNumber "0.75"; JNumber "0.5"]; JArray [JNumber "0.0"; JNumber "1.0"]].

Definition detector_with (phrases : list string) (embeddings : json) : CrisisDetector :=
  {| semantic_phrases := phrases;
     embeddings_model := None;
     phrase_embeddings := embeddings |}.

Definition old_entry : json := cache_entry (detector_with two_phrases old_embeddings).
Definition new_entry : json := cache_entry (detector_with two_phrases new_embeddings).

(** A cache for the same phrases whose ["embeddings"] member is [null]. *)
Definition null_entry : json := cache_entry (detector_with two_phrases JNull).

Definition sample_json : JsonLib := json_for [old_entry; new_entry; null_entry].

(** The disk after an earlier run saved [old_entry]. *)
Definition old_disk : disk :=
  {| cache_file := Some (Contents (dumps old_entry)); writable := true |}.

(** The disk with that cache. *)
Definition null_disk : disk :=
  {| cache_file := Some (Contents (dumps null_entry)); writable := true |}.

(** The buffering of a file shorter than the buffer: the text reaches the
    disk when the file is closed, not before. *)
Definition small_file : Buffering := fun _ => [].

End CacheExamples.

(* ------------------------------------------------------------------ *)
(** *** Reading a trace *)

Definition is_invocation (ch : channel) (ev : event) : bool :=
  match ev, ch with
  | Invoked SMS _, SMS => true
  | Invoked Telegram _, Telegram => true
  | _, _ => false
  end.

(** How many times the dispatcher called [send_alert] on channel [ch]. *)
Definition invocations (ch : channel) (trace : list event) : nat :=
  length (filter (is_invocation ch) trace).

Definition is_request (ev : event) : bool :=
  match ev with
  | TwilioCreate _ _ _ => true
  | HttpPost _ _ _ _ => true
  | _ => false
  end.

Definition is_twilio_request (ev : event) : bool :=
  match ev with
  | TwilioCreate _ _ _ => true
  | _ => false
  end.

(** The requests that left the process. *)
Definition requests (trace : list event) : list event := filter is_request trace.

(** The payloads [trigger_alert] builds. *)
Definition sms_data {P1 P2 : Type} (self : AlertDispatcher P1 P2)
           (user_name reason location short_message : string) : payload :=
  [ ("phone_number", helpline_number self);
    ("message", Some (sms_message user_name reason location short_message)) ].

Definition telegram_data (user_name reason location short_message : string) : payload :=
  [ ("message", Some (telegram_message user_name reason location short_message)) ].

(** The primary channel was called and returned [True]. *)
Definition primary_reports_success (self : AlertDispatcher TwilioProvider TelegramProvider)
           (user_name reason location short_message : string) (net : Network) : bool :=
  truthy (helpline_number self) &&
  match fst (send_alert (sms_provider self)
               (sms_data self user_name reason location short_message) net) with
  | Ok true => true
  | _ => false
  end.

(* ------------------------------------------------------------------ *)
(** *** Data of the alert examples *)

(** Twilio refuses every message; Telegram answers 200. *)
Definition sms_down : Network :=
  {| twilio_client := fun _ _ => Ok tt;
     messages_create := fun _ _ _ => Raise (ProviderError "HTTP 503");
     requests_post := fun _ _ _ _ => Ok (200, "ok") |}.

(** Twilio accepts every message. *)
Definition sms_up : Network :=
  {| twilio_client := fun _ _ => Ok tt;
     messages_create := fun _ _ _ => Ok "SM1";
     requests_post := fun _ _ _ _ => Ok (200, "ok") |}.

Definition configured_dispatcher (helpline : option string)
  : AlertDispatcher TwilioProvider TelegramProvider :=
  {| sms_provider := {| account_sid := Some "AC1";
                        auth_token := Some "token";
                        messaging_service_sid := Some "MG1" |};
     telegram_provider := {| bot_token := Some "bot"; chat_id := Some "42" |};
     helpline_number := helpline |}.

(* ------------------------------------------------------------------ *)
(** *** Notions for the cache, the requests and the log *)

Module CacheNotions.
Import Cache.

(** The text [json.dump] writes for [v] is complete and [json.load] reads
    [v] back from it. *)
Definition round_trips (J : JsonLib) (v : json) : Prop :=
  snd (iterencode J v) = None /\
  loads J (String.concat "" (fst (iterencode J v))) = Ok v.

(** Two detectors with the same reference phrases. *)
Definition same_phrases (a b : CrisisDetector) : Prop :=
  semantic_phrases a = semantic_phrases b.

(** [len(v)] does not raise. *)
Definition has_len (v : json) : bool :=
  match json_len v with
  | Ok _ => true
  | Raise _ => false
  end.

End CacheNotions.

Definition is_critical (ev : event) : bool :=
  match ev with
  | Logged CRITICAL => true
  | _ => false
  end.

Definition is_http_post (ev : event) : bool :=
  match ev with
  | HttpPost _ _ _ _ => true
  | _ => false
  end.

(** The backup channel, called with the Telegram payload, returns [True]. *)
Definition backup_reports_success (self : AlertDispatcher TwilioProvider TelegramProvider)
           (user_name reason location short_message : string) (net : Network) : bool :=
  match fst (send_alert (telegram_provider self)
               (telegram_data user_name reason location short_message) net) with
  | Ok true => true
  | _ => false
  end.

(** Data of the start-up examples: a provider with [embed_documents], an
    empty disk that can be written. *)
Module StartExamples.
Import Cache.

Definition batch_model : EmbeddingsModel :=
  {| embed_documents := Some (fun _ => Ok CacheExamples.new_embeddings);
     embed_query := fun _ => Raise (ProviderError "not used") |}.

(** A provider without [embed_documents] that fails on one phrase. *)
Definition failing_model : EmbeddingsModel :=
  {| embed_documents := None;
     embed_query := fun p =>
       if String.eqb p "Goodbye everyone" then Raise (ProviderError "timed out")
       else Ok (JArray [JNumber "1.0"]) |}.

Definition starting_detector (model : EmbeddingsModel) : CrisisDetector :=
  {| semantic_phrases := CacheExamples.two_phrases;
     embeddings_model := Some model;
     phrase_embeddings := JArray [] |}.

Definition empty_disk : disk := {| cache_file := None; writable := true |}.

End StartExamples.

(** The provider answers every chunk of [chunks] with a vector that has the
    length of every reference vector of [pairs]. *)
Definition provider_answers {F : Type} (model : EmbeddingsModel F)
           (pairs : list (list F * string)) (chunks : list string) : Prop :=
  forall c, In c chunks ->
    exists v, embed_query model c = Ok v /\
              forall p t, In (p, t) pairs -> length v = length p.

(** A provider and a detector over the reals, for the examples: every text
    is embedded as [[1]] and the only reference vector is [[1]]. *)
Definition unit_model : EmbeddingsModel R :=
  {| embed_query := fun _ => Ok [1%R] |}.

Definition unit_detector : CrisisDetector R :=
  {| crisis_keywords := default_crisis_keywords;
     semantic_phrases := ["There is no hope for me"];
     embeddings_model := Some unit_model;
     phrase_embeddings := [[1%R]] |}.

(** The provider [model] with every vector multiplied by [k], and a
    detector given another provider. *)
Definition scaled_model (k : R) (model : EmbeddingsModel R) : EmbeddingsModel R :=
  {| embed_query := fun text =>
       match embed_query model text with
       | Ok v => Ok (map (Rmult k) v)
       | Raise e => Raise e
       end |}.

Definition with_model {F : Type} (self : CrisisDetector F) (model : EmbeddingsModel F)
  : CrisisDetector F :=
  {| crisis_keywords := crisis_keywords self;
     semantic_phrases := semantic_phrases self;
     embeddings_model := Some model;
     phrase_embeddings := phrase_embeddings self |}.

(* ================================================================== *)
(** * Properties *)

(* ------------------------------------------------------------------ *)
(** ** Strings and word windows *)

Lemma append_empty_r (s : string) : (s ++ "")%string = s.
Proof. induction s as [|c s IH]; simpl; [reflexivity | now rewrite IH]. Qed.

Lemma append_assoc (a b c : string) : ((a ++ b) ++ c)%string = (a ++ (b ++ c))%string.
Proof. induction a as [|x a IH]; simpl; [reflexivity | now rewrite IH]. Qed.

Lemma nospace_app (a b : string) :
  nospace (a ++ b) = nospace a && nospace b.
Proof.
  induction a as [|x a IH]; simpl; [reflexivity|].
  rewrite IH. now rewrite andb_assoc.
Qed.

(** Reading a word in front of [rest] only extends the word being read. *)
Lemma split_from_app_word (w : string) :
  nospace w = true ->
  forall cur rest, split_from cur (w ++ rest) = split_from (cur ++ w) rest.
Proof.
  induction w as [|c w IH]; intros Hw cur rest; simpl.
  - now rewrite append_empty_r.
  - simpl in Hw. apply andb_prop in Hw as [Hc Hw].
    apply negb_true_iff in Hc. rewrite Hc.
    rewrite (IH Hw). now rewrite append_assoc.
Qed.

Lemma split_from_words (s : string) :
  forall cur, nospace cur = true -> Forall word (split_from cur s).
Proof.
  induction s as [|c s IH]; intros cur Hcur; simpl.
  - destruct cur; constructor; [split; [discriminate | assumption] | constructor].
  - destruct (isspace c) eqn:Hc.
    + destruct cur.
      * apply IH. reflexivity.
      * constructor; [split; [discriminate | assumption] | apply IH; reflexivity].
    + apply IH. rewrite nospace_app, Hcur. simpl. now rewrite Hc.
Qed.

Lemma split_words (text : string) : Forall word (split text).
Proof. apply split_from_words. reflexivity. Qed.

Lemma join_cons2 (sep w w' : string) (ws : list string) :
  join sep (w :: w' :: ws) = (w ++ sep ++ join sep (w' :: ws))%string.
Proof. reflexivity. Qed.

(** Joining words with one space and splitting again gives the words back. *)
Lemma split_join (ws : list string) :
  Forall word ws -> split (join " " ws) = ws.
Proof.
  induction ws as [|w ws IH]; intros Hall; [reflexivity|].
  inversion Hall as [|w0 ws0 [Hne Hns] Hrest]; subst.
  destruct ws as [|w' ws].
  - unfold split, join. simpl.
    rewrite <- (append_empty_r w) at 1.
    rewrite (split_from_app_word w Hns). simpl.
    destruct w; [contradiction Hne; reflexivity | reflexivity].
  - rewrite join_cons2. unfold split.
    rewrite (split_from_app_word w Hns). simpl.
    destruct w as [|c w]; [contradiction Hne; reflexivity|].
    f_equal. apply IH. assumption.
Qed.

Lemma slice_In {A : Type} (l : list A) (i j : nat) (x : A) :
  In x (slice l i j) -> In x l.
Proof.
  unfold slice. intros Hx.
  apply In_nth_error in Hx as [n Hn].
  rewrite nth_error_firstn in Hn.
  destruct (n <? j - i); [|discriminate].
  rewrite nth_error_skipn in Hn. eapply nth_error_In. exact Hn.
Qed.

Lemma slice_words (ws : list string) (i j : nat) :
  Forall word ws -> Forall word (slice ws i j).
Proof.
  intros Hall. apply Forall_forall. intros x Hx.
  apply slice_In in Hx. revert x Hx. now apply Forall_forall.
Qed.

Lemma slice_nth {A : Type} (l : list A) (i j n : nat) (x : A) :
  nth_error l n = Some x -> i <= n -> n < j -> In x (slice l i j).
Proof.
  intros Hn Hi Hj. unfold slice.
  apply (nth_error_In _ (n - i)).
  rewrite nth_error_firstn.
  assert (Hlt : (n - i <? j - i) = true) by (apply Nat.ltb_lt; lia).
  rewrite Hlt, nth_error_skipn.
  replace (i + (n - i)) with n by lia. assumption.
Qed.

(** The offsets [range(0, n, step)] runs through reach [n]. *)
Lemma range_len_reaches (n step : nat) :
  1 <= step -> n <= range_len 0 n step * step.
Proof.
  intros Hstep. unfold range_len.
  pose proof (Nat.div_mod_eq (n - 0 + (step - 1)) step) as Hdm.
  pose proof (Nat.mod_upper_bound (n - 0 + (step - 1)) step ltac:(lia)) as Hub.
  nia.
Qed.

Section Windows.
Variables (words : list string) (window_size step : nat).
Hypothesis step_pos : 1 <= step.
Hypothesis window_covers_step : step <= window_size.
Hypothesis words_ok : Forall word words.

Let offsets_from (a m : nat) : list nat := map (fun k => 0 + k * step) (seq a m).

(** Every word at or after the first offset is inside an emitted chunk. *)
Lemma chunk_loop_covers (m : nat) :
  forall a j w,
    nth_error words j = Some w ->
    a * step <= j ->
    length words <= (a + m) * step ->
    exists c, In c (chunk_loop words window_size (offsets_from a m)) /\ In w (split c).
Proof.
  induction m as [|m IH]; intros a j w Hj Hlo Hhi.
  - assert (j < length words) by (apply nth_error_Some; congruence). lia.
  - assert (Hlen : j < length words) by (apply nth_error_Some; congruence).
    unfold offsets_from. simpl. fold (offsets_from (S a) m).
    destruct (Nat.leb_spec (length words) (a * step + window_size)) as [Hbreak|Hgo].
    + eexists. split; [left; reflexivity|].
      rewrite split_join by (apply slice_words; exact words_ok).
      apply (slice_nth _ _ _ j); [assumption | lia | lia].
    + destruct (Nat.lt_ge_cases j (a * step + window_size)) as [Hin|Hout].
      * eexists. split; [left; reflexivity|].
        rewrite split_join by (apply slice_words; exact words_ok).
        apply (slice_nth _ _ _ j); [assumption | lia | lia].
      * destruct (IH (S a) j w Hj) as [c [Hc Hw]]; [simpl; lia | simpl in *; lia |].
        exists c. split; [right; exact Hc | exact Hw].
Qed.

(** The [k]-th chunk emitted is the window at the [k]-th offset. *)
Lemma chunk_loop_nth (m : nat) :
  forall a k c,
    nth_error (chunk_loop words window_size (offsets_from a m)) k = Some c ->
    c = join " " (slice words ((a + k) * step) ((a + k) * step + window_size)).
Proof.
  induction m as [|m IH]; intros a k c Hk.
  - destruct k; discriminate.
  - unfold offsets_from in Hk. simpl in Hk. fold (offsets_from (S a) m) in Hk.
    destruct (length words <=? a * step + window_size).
    + destruct k as [|k]; simpl in Hk.
      * inversion Hk. now rewrite Nat.add_0_r.
      * destruct k; discriminate.
    + destruct k as [|k]; simpl in Hk.
      * inversion Hk. now rewrite Nat.add_0_r.
      * apply IH in Hk. rewrite Hk. now replace (S a + k) with (a + S k) by lia.
Qed.

(** The loop stops on a chunk whose window reaches the last word. *)
Lemma chunk_loop_last (m : nat) :
  forall a,
    a * step < length words ->
    length words <= (a + m) * step ->
    exists k,
      length (chunk_loop words window_size (offsets_from a m)) = S k /\
      length words <= (a + k) * step + window_size.
Proof.
  induction m as [|m IH]; intros a Hlo Hhi.
  - lia.
  - unfold offsets_from. simpl. fold (offsets_from (S a) m).
    destruct (Nat.leb_spec (length words) (a * step + window_size)) as [Hbreak|Hgo].
    + exists 0. split; [reflexivity | lia].
    + destruct (IH (S a)) as [k [Hk Hreach]]; [simpl; lia | simpl in *; lia |].
      exists (S k). split; [cbn [length]; f_equal; exact Hk|].
      now replace (a + S k) with (S a + k) by lia.
Qed.

End Windows.

(* ------------------------------------------------------------------ *)
(** ** [_chunk_text] *)

(** C9. A text of at most [window_size] words is returned as the single
    chunk of [_chunk_text], character for character. *)
Theorem chunk_text_short (text : string) (window_size step : nat) :
  length (split text) <= window_size ->
  _chunk_text text window_size step = Ok [text].
Proof.
  intros Hshort. unfold _chunk_text.
  apply Nat.leb_le in Hshort. now rewrite Hshort.
Qed.

Lemma chunk_text_short_witness :
  _chunk_text "  I am   feeling okay today " default_window_size default_step
  = Ok ["  I am   feeling okay today "].
Proof.
  apply chunk_text_short. vm_compute. lia.
Defined.



(** The two windows of the sixteen-word text. *)
Example chunk_text_long_text :
  _chunk_text long_text default_window_size default_step
  = Ok [first_window; second_window].
Proof. reflexivity. Qed.

(** A zero step is an error of [range]. *)
Example chunk_text_zero_step :
  _chunk_text long_text 15 0 = Raise ValueError.
Proof. reflexivity. Qed.

(* ------------------------------------------------------------------ *)
(** ** [detect]: the lexical pass *)

Lemma lower_char_not_upper_I (c : ascii) : lower_char c <> "I"%char.
Proof.
  destruct c as [[] [] [] [] [] [] [] []]; vm_compute; intro E; discriminate E.
Qed.

(** No lower-cased text holds the keyword ["I quit"]. *)
Lemma re_search_I_quit_lower (text : string) :
  re_search "I quit" (lower text) = false.
Proof.
  induction text as [|c text IH]; [reflexivity|].
  cbn [lower re_search]. rewrite IH, orb_false_r.
  cbn [prefix].
  destruct (ascii_dec "I" (lower_char c)) as [E|_]; [|reflexivity].
  exfalso. apply (lower_char_not_upper_I c). now symmetry.
Qed.

Section DetectFacts.
Context {F : Type} `{Float64 F}.

Lemma lexical_match_intro (self : CrisisDetector F) (text pattern : string) :
  In pattern (crisis_keywords self) ->
  re_search pattern (lower text) = true ->
  lexical_match self text = true.
Proof.
  intros Hin Hhit. unfold lexical_match.
  apply existsb_exists. exists pattern. split; assumption.
Qed.

(** A keyword written in lower case is found whatever the case of the text,
    and whatever the semantic pass would do. *)
Lemma detect_lexical_hit (self : CrisisDetector F) (text pattern : string) :
  In pattern (crisis_keywords self) ->
  lower pattern = pattern ->
  contains_ignoring_case text pattern = true ->
  detect self text = Ok (true, lexical_reason).
Proof.
  intros Hin Hlow Hhit. unfold contains_ignoring_case in Hhit.
  rewrite Hlow in Hhit. unfold detect.
  now rewrite (lexical_match_intro self text pattern Hin Hhit).
Qed.

(** With no keyword found the answer is the one of the semantic pass. *)
Lemma detect_lexical_miss (self : CrisisDetector F) (text : string) :
  lexical_match self text = false ->
  detect self text =
  match semantic_enabled self with
  | Some model =>
      match try_except (semantic_pass self model text) (fun _ => Ok None) with
      | Ok (Some answer) => Ok answer
      | _ => Ok (false, "")
      end
  | None => Ok (false, "")
  end.
Proof.
  intros Hmiss. unfold detect. rewrite Hmiss.
  destruct (semantic_enabled self) as [model|]; [|reflexivity].
  destruct (semantic_pass self model text) as [[answer|]|e]; reflexivity.
Qed.

Lemma semantic_pass_answer (self : CrisisDetector F) (model : EmbeddingsModel F)
      (text : string) (answer : bool * string) :
  semantic_pass self model text = Ok (Some answer) ->
  answer = (true, semantic_reason).
Proof.
  unfold semantic_pass.
  destruct (_chunk_text text default_window_size default_step) as [chunks|e]; [|discriminate].
  cbn [bind].
  destruct (scan_chunks _ _ chunks scan_init) as [st|e]; [|discriminate].
  cbn [bind].
  destruct (threshold st) as [t|]; [|discriminate].
  destruct (fgtb (max_score_overall st) t); congruence.
Qed.

(** The three answers of [detect]. *)
Lemma detect_cases (self : CrisisDetector F) (text : string) :
  detect self text = Ok (true, lexical_reason) \/
  detect self text = Ok (true, semantic_reason) \/
  detect self text = Ok (false, "").
Proof.
  unfold detect.
  destruct (lexical_match self text); [left; reflexivity|].
  destruct (semantic_enabled self) as [model|]; [|right; right; reflexivity].
  destruct (semantic_pass self model text) as [[answer|]|e] eqn:Hpass; cbn.
  - apply semantic_pass_answer in Hpass. subst answer. right; left; reflexivity.
  - right; right; reflexivity.
  - right; right; reflexivity.
Qed.

End DetectFacts.

(** C1, at the input where the code departs from it.  ["I quit"] is one of
    the configured keywords and the text ["I quit"] contains it, yet the
    keyword keeps its capital letter while the text is lower-cased, so no
    text matches it, and [detect] answers that there is no crisis. *)
Theorem detect_misses_I_quit :
  In "I quit" default_crisis_keywords /\
  contains_ignoring_case "I quit" "I quit" = true /\
  (forall text, re_search "I quit" (lower text) = false) /\
  (forall (F : Type) (Fl : Float64 F),
      detect (new_detector (F := F) None) "I quit" = Ok (false, "")).
Proof.
  split; [simpl; tauto|].
  split; [reflexivity|].
  split; [exact re_search_I_quit_lower|].
  intros F Fl. reflexivity.
Qed.

(** The keywords have no regular-expression operator in them. *)
Example crisis_keywords_literal :
  forallb literal_pattern default_crisis_keywords = true.
Proof. reflexivity. Qed.

(** The nine keywords written in lower case are found in any letter case. *)
Example detect_upper_case_keyword :
  detect (new_detector (F := float) None) "I WANT TO KILL MYSELF"
  = Ok (true, lexical_reason).
Proof. reflexivity. Qed.

Example detect_feeling_okay :
  detect (new_detector (F := float) None) "I am feeling okay today" = Ok (false, "").
Proof. reflexivity. Qed.

(** The semantic scenario of [tests/test_alerts_mock.py]. *)
Example detect_mock_semantic :
  detect mock_detector "Some user text" = Ok (true, semantic_reason).
Proof. vm_compute. reflexivity. Qed.

(** C7. [detect] returns a pair whose reason is the empty string exactly
    when its flag is false; a true flag comes with one of the two fixed
    reasons. *)
Theorem detect_reason_empty_iff_not_crisis
        (F : Type) (Fl : Float64 F) (self : CrisisDetector F) (text : string) :
  exists is_crisis reason,
    detect self text = Ok (is_crisis, reason) /\
    (reason = "" <-> is_crisis = false) /\
    (is_crisis = true -> reason = lexical_reason \/ reason = semantic_reason).
Proof.
  destruct (detect_cases self text) as [E|[E|E]]; rewrite E.
  - exists true, lexical_reason. split; [reflexivity|].
    split; [split; discriminate | intros _; left; reflexivity].
  - exists true, semantic_reason. split; [reflexivity|].
    split; [split; discriminate | intros _; right; reflexivity].
  - exists false, "". split; [reflexivity|].
    split; [split; reflexivity | discriminate].
Qed.

(* ------------------------------------------------------------------ *)
(** ** [detect]: the semantic pass *)

Section ScanFacts.
Context {F : Type} `{Float64 F}.

(** An exception of the provider on one chunk ends the scan. *)
Lemma scan_chunks_provider_raise (model : EmbeddingsModel F)
      (pairs : list (list F * string)) (chunks : list string) :
  forall st c e,
    In c chunks ->
    embed_query model c = Raise e ->
    exists e', scan_chunks model pairs chunks st = Raise e'.
Proof.
  induction chunks as [|chunk rest IH]; intros st c e Hin Hraise; [contradiction|].
  cbn [scan_chunks].
  destruct (embed_query model chunk) as [v|e0] eqn:Hchunk; cbn [bind].
  2:{ exists e0. reflexivity. }
  destruct Hin as [->|Hin]; [congruence|].
  destruct (feqb (np_linalg_norm v) fzero).
  - eapply IH; eassumption.
  - destruct (compare_phrases v _ pairs _) as [st2|e2]; cbn [bind].
    + eapply IH; eassumption.
    + exists e2. reflexivity.
Qed.

(** A reference vector whose length is not the one of the chunk vector ends
    the inner loop, unless its norm is zero. *)
Lemma compare_phrases_shape_raise (v : list F) (n : F) (pairs : list (list F * string)) :
  forall st p t,
    In (p, t) pairs ->
    feqb (np_linalg_norm p) fzero = false ->
    length v <> length p ->
    exists e, compare_phrases v n pairs st = Raise e.
Proof.
  induction pairs as [|[q u] rest IH]; intros st p t Hin Hnorm Hlen; [contradiction|].
  cbn [compare_phrases].
  destruct Hin as [E|Hin].
  - inversion E; subst q u. rewrite Hnorm. unfold np_dot.
    apply Nat.eqb_neq in Hlen. rewrite Hlen. cbn [bind]. exists ValueError. reflexivity.
  - destruct (feqb (np_linalg_norm q) fzero); [eapply IH; eassumption|].
    destruct (np_dot v q) as [d|e]; cbn [bind]; [|exists e; reflexivity].
    destruct (fgtb _ _); eapply IH; eassumption.
Qed.

Lemma scan_chunks_shape_raise (model : EmbeddingsModel F)
      (pairs : list (list F * string)) (chunks : list string) :
  forall st c v p t,
    In c chunks ->
    embed_query model c = Ok v ->
    feqb (np_linalg_norm v) fzero = false ->
    In (p, t) pairs ->
    feqb (np_linalg_norm p) fzero = false ->
    length v <> length p ->
    exists e, scan_chunks model pairs chunks st = Raise e.
Proof.
  induction chunks as [|chunk rest IH]; intros st c v p t Hin Hv Hvn Hp Hpn Hlen;
    [contradiction|].
  cbn [scan_chunks].
  destruct Hin as [->|Hin].
  - rewrite Hv. cbn [bind]. rewrite Hvn.
    destruct (compare_phrases_shape_raise v (np_linalg_norm v) pairs
                {| max_score_overall := max_score_overall st;
                   best_phrase := best_phrase st;
                   threshold := Some fthreshold |} p t Hp Hpn Hlen) as [e He].
    rewrite He. exists e. reflexivity.
  - destruct (embed_query model chunk) as [v0|e0]; cbn [bind]; [|exists e0; reflexivity].
    destruct (feqb (np_linalg_norm v0) fzero); [eapply IH; eassumption|].
    destruct (compare_phrases v0 _ pairs _) as [st2|e2]; cbn [bind].
    + eapply IH; eassumption.
    + exists e2. reflexivity.
Qed.

(** The inner loop leaves [threshold] alone. *)
Lemma compare_phrases_threshold (v : list F) (n : F) (pairs : list (list F * string)) :
  forall st st',
    compare_phrases v n pairs st = Ok st' -> threshold st' = threshold st.
Proof.
  induction pairs as [|[q u] rest IH]; intros st st' Hrun; cbn [compare_phrases] in Hrun.
  - now inversion Hrun.
  - destruct (feqb (np_linalg_norm q) fzero); [now apply IH|].
    destruct (np_dot v q) as [d|e]; cbn [bind] in Hrun; [|discriminate].
    destruct (fgtb _ _); apply IH in Hrun; exact Hrun.
Qed.

(** After one chunk at least, [threshold] is bound to 0.85. *)
Lemma scan_chunks_threshold (model : EmbeddingsModel F)
      (pairs : list (list F * string)) (chunks : list string) :
  forall st st',
    scan_chunks model pairs chunks st = Ok st' ->
    threshold st' = match chunks with [] => threshold st | _ => Some fthreshold end.
Proof.
  induction chunks as [|chunk rest IH]; intros st st' Hrun; cbn [scan_chunks] in Hrun.
  - now inversion Hrun.
  - destruct (embed_query model chunk) as [v|e]; cbn [bind] in Hrun; [|discriminate].
    destruct (feqb (np_linalg_norm v) fzero).
    + apply IH in Hrun. rewrite Hrun. now destruct rest.
    + destruct (compare_phrases v _ pairs _) as [st2|e2] eqn:Hcmp; cbn [bind] in Hrun;
        [|discriminate].
      apply compare_phrases_threshold in Hcmp. cbn in Hcmp.
      apply IH in Hrun. rewrite Hrun. now destruct rest.
Qed.

(** A reference vector of norm zero is passed over. *)
Lemma compare_phrases_skips_zero_norm (v : list F) (n : F) (pairs : list (list F * string)) :
  forall st,
    compare_phrases v n pairs st
    = compare_phrases v n (filter (fun pair => negb (zero_norm_phrase pair)) pairs) st.
Proof.
  induction pairs as [|[q u] rest IH]; intros st; [reflexivity|].
  cbn [compare_phrases filter]. unfold zero_norm_phrase at 1. cbn [fst].
  destruct (feqb (np_linalg_norm q) fzero) eqn:Hq; cbn [negb].
  - apply IH.
  - cbn [compare_phrases]. rewrite Hq.
    destruct (np_dot v q) as [d|e]; cbn [bind]; [|reflexivity].
    destruct (fgtb _ _); apply IH.
Qed.

(** The inner loop reads [max_score_overall] and [best_phrase] only. *)
Lemma compare_phrases_same_scores (v : list F) (n : F) (pairs : list (list F * string)) :
  forall st st',
    same_scores st st' ->
    result_same_scores (compare_phrases v n pairs st) (compare_phrases v n pairs st').
Proof.
  induction pairs as [|[q u] rest IH]; intros st st' Hsame; cbn [compare_phrases].
  - exact Hsame.
  - destruct (feqb (np_linalg_norm q) fzero); [now apply IH|].
    destruct (np_dot v q) as [d|e]; cbn [bind]; [|exact I].
    destruct Hsame as [Hmax Hbest]. rewrite <- Hmax.
    destruct (fgtb _ _); apply IH; split; cbn; auto.
Qed.

Lemma scan_chunks_same_scores (model : EmbeddingsModel F)
      (pairs pairs' : list (list F * string)) (chunks : list string) :
  (forall v n st, compare_phrases v n pairs st = compare_phrases v n pairs' st) ->
  forall st st',
    same_scores st st' ->
    result_same_scores (scan_chunks model pairs chunks st)
                       (scan_chunks model pairs' chunks st').
Proof.
  intros Hpairs.
  induction chunks as [|chunk rest IH]; intros st st' Hsame; cbn [scan_chunks].
  - exact Hsame.
  - destruct (embed_query model chunk) as [v|e]; cbn [bind]; [|exact I].
    destruct (feqb (np_linalg_norm v) fzero).
    + apply IH. destruct Hsame; split; cbn; assumption.
    + rewrite <- Hpairs.
      pose proof (compare_phrases_same_scores v (np_linalg_norm v) pairs
                    {| max_score_overall := max_score_overall st;
                       best_phrase := best_phrase st;
                       threshold := Some fthreshold |}
                    {| max_score_overall := max_score_overall st';
                       best_phrase := best_phrase st';
                       threshold := Some fthreshold |}) as Hcmp.
      specialize (Hcmp ltac:(destruct Hsame; split; cbn; assumption)).
      destruct (compare_phrases v _ pairs {| max_score_overall := max_score_overall st |})
        as [s|e];
        destruct (compare_phrases v _ pairs {| max_score_overall := max_score_overall st' |})
        as [s'|e']; cbn [bind]; cbn in Hcmp.
      * apply IH. exact Hcmp.
      * contradiction.
      * contradiction.
      * exact I.
Qed.

(** A chunk whose vector has norm zero is passed over. *)
Lemma scan_chunks_skips_zero_norm (model : EmbeddingsModel F)
      (pairs : list (list F * string)) (chunks : list string) :
  forall st st',
    same_scores st st' ->
    result_same_scores
      (scan_chunks model pairs chunks st)
      (scan_chunks model (filter (fun pair => negb (zero_norm_phrase pair)) pairs)
         (filter (fun c => negb (zero_norm_chunk model c)) chunks) st').
Proof.
  induction chunks as [|chunk rest IH]; intros st st' Hsame.
  - exact Hsame.
  - cbn [filter]. unfold zero_norm_chunk at 1.
    destruct (embed_query model chunk) as [v|e] eqn:Hchunk.
    + destruct (feqb (np_linalg_norm v) fzero) eqn:Hv; cbn [negb].
      * cbn [scan_chunks]. rewrite Hchunk. cbn [bind]. rewrite Hv.
        apply IH. destruct Hsame; split; cbn; assumption.
      * cbn [scan_chunks]. rewrite Hchunk. cbn [bind]. rewrite Hv.
        rewrite <- (compare_phrases_skips_zero_norm v (np_linalg_norm v) pairs).
        pose proof (compare_phrases_same_scores v (np_linalg_norm v) pairs
                      {| max_score_overall := max_score_overall st;
                         best_phrase := best_phrase st;
                         threshold := Some fthreshold |}
                      {| max_score_overall := max_score_overall st';
                         best_phrase := best_phrase st';
                         threshold := Some fthreshold |}) as Hcmp.
        specialize (Hcmp ltac:(destruct Hsame; split; cbn; assumption)).
        destruct (compare_phrases v _ pairs {| max_score_overall := max_score_overall st |})
          as [s|e];
          destruct (compare_phrases v _ pairs {| max_score_overall := max_score_overall st' |})
          as [s'|e']; cbn [bind]; cbn in Hcmp.
        -- apply IH. exact Hcmp.
        -- contradiction.
        -- contradiction.
        -- exact I.
    + cbn [negb scan_chunks]. rewrite Hchunk. cbn [bind]. exact I.
Qed.

End ScanFacts.

Lemma range_len_pos (n step : nat) : 1 <= step -> 1 <= n -> 1 <= range_len 0 n step.
Proof.
  intros Hstep Hn. pose proof (range_len_reaches n step Hstep) as Hreach.
  destruct (range_len 0 n step); lia.
Qed.

(** [_chunk_text] never returns the empty list. *)
Lemma chunk_text_nonempty (text : string) (window_size step : nat) (chunks : list string) :
  _chunk_text text window_size step = Ok chunks -> chunks <> [].
Proof.
  unfold _chunk_text.
  destruct (Nat.leb_spec (length (split text)) window_size) as [Hshort|Hlong].
  - intros E; inversion E; discriminate.
  - unfold range. destruct (Nat.eqb_spec step 0) as [?|Hstep]; [discriminate|].
    cbn [bind]. intros E; inversion E as [Hchunks]; clear E.
    pose proof (range_len_pos (length (split text)) step ltac:(lia) ltac:(lia)) as Hpos.
    destruct (range_len 0 (length (split text)) step) as [|m]; [lia|].
    cbn [seq map chunk_loop]. destruct (_ <=? _); discriminate.
Qed.

Section SemanticPassFacts.
Context {F : Type} `{Float64 F}.

(** The answer of [detect] once the lexical pass has found nothing and the
    semantic pass is enabled, from the outcome of the scan. *)
Lemma detect_of_scan (self : CrisisDetector F) (model : EmbeddingsModel F)
      (text : string) (chunks : list string) :
  lexical_match self text = false ->
  semantic_enabled self = Some model ->
  _chunk_text text default_window_size default_step = Ok chunks ->
  detect self text =
  match scan_chunks model (combine (phrase_embeddings self) (semantic_phrases self))
          chunks scan_init with
  | Ok st =>
      if fgtb (max_score_overall st) fthreshold then Ok (true, semantic_reason)
      else Ok (false, "")
  | Raise _ => Ok (false, "")
  end.
Proof.
  intros Hmiss Hmodel Hchunks.
  rewrite (detect_lexical_miss self text Hmiss), Hmodel.
  unfold semantic_pass. rewrite Hchunks. cbn [bind].
  destruct (scan_chunks model _ chunks scan_init) as [st|e] eqn:Hscan; cbn [bind try_except];
    [|reflexivity].
  rewrite (scan_chunks_threshold _ _ _ _ _ Hscan).
  destruct chunks as [|c rest]; [exfalso; eapply chunk_text_nonempty; eauto|].
  destruct (fgtb (max_score_overall st) fthreshold); reflexivity.
Qed.

End SemanticPassFacts.




(* ------------------------------------------------------------------ *)
(** ** The cosine similarity *)

Section ScoreFacts.
Context {F : Type} `{Float64 F}.

(** What the inner loop leaves in [max_score_overall]: what it found there,
    or the quotient for a reference vector whose norm is not zero. *)
Lemma compare_phrases_provenance (v : list F) (n : F) (pairs : list (list F * string)) :
  forall st st',
    compare_phrases v n pairs st = Ok st' ->
    st' = st \/
    exists p t d,
      In (p, t) pairs /\
      feqb (np_linalg_norm p) fzero = false /\
      np_dot v p = Ok d /\
      max_score_overall st' = fdiv d (fmul n (np_linalg_norm p)) /\
      best_phrase st' = t.
Proof.
  induction pairs as [|[q u] rest IH]; intros st st' Hrun; cbn [compare_phrases] in Hrun.
  - left. now inversion Hrun.
  - destruct (feqb (np_linalg_norm q) fzero) eqn:Hq.
    + destruct (IH _ _ Hrun) as [E|(p & t & d & Hin & Hrest)]; [left; exact E|].
      right. exists p, t, d. split; [right; exact Hin | exact Hrest].
    + destruct (np_dot v q) as [d0|e] eqn:Hdot; cbn [bind] in Hrun; [|discriminate].
      destruct (fgtb _ _).
      * destruct (IH _ _ Hrun) as [E|(p & t & d & Hin & Hrest)].
        -- right. exists q, u, d0. subst st'. cbn.
           split; [left; reflexivity|]. repeat split; auto.
        -- right. exists p, t, d. split; [right; exact Hin | exact Hrest].
      * destruct (IH _ _ Hrun) as [E|(p & t & d & Hin & Hrest)]; [left; exact E|].
        right. exists p, t, d. split; [right; exact Hin | exact Hrest].
Qed.

Lemma score_of_cons (model : EmbeddingsModel F) (pairs : list (list F * string))
      (chunk : string) (chunks : list string) (score : F) (t : string) :
  score_of model pairs chunks score t -> score_of model pairs (chunk :: chunks) score t.
Proof.
  intros (c & v & p & d & Hin & Hrest).
  exists c, v, p, d. split; [right; exact Hin | exact Hrest].
Qed.

(** What the scan leaves in [max_score_overall] and [best_phrase]: what it
    found there, or the quotient for a chunk vector and a reference vector
    that both passed the test on their norm. *)
Lemma scan_chunks_provenance (model : EmbeddingsModel F)
      (pairs : list (list F * string)) (chunks : list string) :
  forall st st',
    scan_chunks model pairs chunks st = Ok st' ->
    same_scores st st' \/
    score_of model pairs chunks (max_score_overall st') (best_phrase st').
Proof.
  induction chunks as [|chunk rest IH]; intros st st' Hrun; cbn [scan_chunks] in Hrun.
  - left. inversion Hrun. split; reflexivity.
  - destruct (embed_query model chunk) as [v|e] eqn:Hchunk; cbn [bind] in Hrun;
      [|discriminate].
    destruct (feqb (np_linalg_norm v) fzero) eqn:Hv.
    + destruct (IH _ _ Hrun) as [Hsame|Hscore].
      * left. exact Hsame.
      * right. now apply score_of_cons.
    + destruct (compare_phrases v _ pairs _) as [st2|e2] eqn:Hcmp; cbn [bind] in Hrun;
        [|discriminate].
      destruct (IH _ _ Hrun) as [[Hmax Hbest]|Hscore]; [|right; now apply score_of_cons].
      destruct (compare_phrases_provenance _ _ _ _ _ Hcmp)
        as [E|(p & t & d & Hin & Hp & Hdot & Hs & Hb)].
      * left. subst st2. split; [exact Hmax | exact Hbest].
      * right. exists chunk, v, p, d.
        split; [left; reflexivity|]. split; [exact Hchunk|].
        rewrite <- Hbest, Hb. split; [exact Hin|].
        split; [exact Hv|]. split; [exact Hp|]. split; [exact Hdot|].
        now rewrite <- Hmax.
Qed.

End ScoreFacts.

Section ExactCosine.
Local Open Scope R_scope.

Lemma sum_products_rdot (a : list R) :
  forall b acc, sum_products acc a b = acc + rdot a b.
Proof.
  induction a as [|x a IH]; intros b acc; cbn [sum_products rdot].
  - lra.
  - destruct b as [|y b]; [lra|]. rewrite IH. cbn. lra.
Qed.

Lemma rdot_self_nonneg (a : list R) : 0 <= rdot a a.
Proof.
  induction a as [|x a IH]; cbn [rdot]; [lra | nra].
Qed.

Lemma mixed_term_le (x y s A B : R) :
  0 <= A -> 0 <= B -> s * s <= A * B ->
  2 * (x * y) * s <= x * x * B + y * y * A.
Proof.
  intros HA HB Hs.
  assert (Hx : 0 <= x * x) by nra.
  assert (Hy : 0 <= y * y) by nra.
  assert (H0 : 0 <= x * x * B + y * y * A).
  { pose proof (Rmult_le_pos _ _ Hx HB). pose proof (Rmult_le_pos _ _ Hy HA). lra. }
  destruct (Rle_or_lt (2 * (x * y) * s) 0) as [Hneg|Hpos]; [lra|].
  assert (Hsq : (2 * (x * y) * s) * (2 * (x * y) * s)
                <= (x * x * B + y * y * A) * (x * x * B + y * y * A)).
  { assert (H1 : 4 * (x * x) * (y * y) * (s * s) <= 4 * (x * x) * (y * y) * (A * B)).
    { apply Rmult_le_compat_l; [|exact Hs].
      pose proof (Rmult_le_pos _ _ Hx Hy). lra. }
    pose proof (Rle_0_sqr (x * x * B - y * y * A)) as H2. unfold Rsqr in H2.
    replace ((2 * (x * y) * s) * (2 * (x * y) * s))
      with (4 * (x * x) * (y * y) * (s * s)) by ring.
    replace ((x * x * B + y * y * A) * (x * x * B + y * y * A))
      with ((x * x * B - y * y * A) * (x * x * B - y * y * A)
            + 4 * (x * x) * (y * y) * (A * B)) by ring.
    lra. }
  set (u := 2 * (x * y) * s) in *. set (w := x * x * B + y * y * A) in *.
  destruct (Rle_or_lt u w); [assumption|]. exfalso. nra.
Qed.

(** Cauchy and Schwarz. *)
Lemma rdot_square_le (a : list R) :
  forall b, rdot a b * rdot a b <= rdot a a * rdot b b.
Proof.
  induction a as [|x a IH]; intros b; cbn [rdot].
  - destruct b; cbn [rdot]; lra.
  - destruct b as [|y b]; cbn [rdot].
    + pose proof (rdot_self_nonneg a). nra.
    + specialize (IH b).
      pose proof (mixed_term_le x y _ _ _ (rdot_self_nonneg a) (rdot_self_nonneg b) IH)
        as Hmix.
      set (s := rdot a b) in *. set (A := rdot a a) in *. set (B := rdot b b) in *.
      replace ((x * y + s) * (x * y + s))
        with ((x * x) * (y * y) + 2 * (x * y) * s + s * s) by ring.
      replace ((x * x + A) * (y * y + B))
        with ((x * x) * (y * y) + (x * x * B + y * y * A) + A * B) by ring.
      lra.
Qed.

Lemma exact_norm (v : list R) : np_linalg_norm v = sqrt (rdot v v).
Proof.
  unfold np_linalg_norm. rewrite sum_products_rdot. cbn. f_equal. lra.
Qed.

Lemma exact_feqb_false (x : R) : feqb x fzero = false -> x <> 0.
Proof.
  cbn. destruct (Req_dec_T x 0); [discriminate | auto].
Qed.

(** In exact arithmetic the quotient of the scan lies between -1 and 1, and
    its divisor is not zero. *)
Lemma exact_cosine_bounded (v p : list R) (d : R) :
  feqb (np_linalg_norm v) fzero = false ->
  feqb (np_linalg_norm p) fzero = false ->
  np_dot v p = Ok d ->
  fmul (np_linalg_norm v) (np_linalg_norm p) <> 0 /\
  -1 <= fdiv d (fmul (np_linalg_norm v) (np_linalg_norm p)) <= 1.
Proof.
  intros Hv Hp Hdot.
  apply exact_feqb_false in Hv. apply exact_feqb_false in Hp.
  rewrite !exact_norm. rewrite exact_norm in Hv. rewrite exact_norm in Hp.
  unfold np_dot in Hdot. destruct (_ =? _)%nat; [|discriminate].
  assert (Hd : d = rdot v p).
  { inversion Hdot as [Hd]. rewrite sum_products_rdot. cbn. lra. }
  clear Hdot. cbn [fmul fdiv exact].
  pose proof (rdot_self_nonneg v) as HA. pose proof (rdot_self_nonneg p) as HB.
  pose proof (sqrt_pos (rdot v v)) as HnA. pose proof (sqrt_pos (rdot p p)) as HnB.
  pose proof (sqrt_sqrt _ HA) as HsA. pose proof (sqrt_sqrt _ HB) as HsB.
  pose proof (rdot_square_le v p) as HCS. rewrite <- Hd in HCS.
  set (nv := sqrt (rdot v v)) in *. set (np := sqrt (rdot p p)) in *.
  assert (Hpos : 0 < nv * np) by (apply Rmult_lt_0_compat; lra).
  assert (Hd2 : d * d <= (nv * np) * (nv * np)).
  { replace ((nv * np) * (nv * np)) with ((nv * nv) * (np * np)) by ring.
    rewrite HsA, HsB. exact HCS. }
  split; [lra|].
  assert (Hq : d / (nv * np) * (nv * np) = d) by (field; lra).
  assert (Habs : - (nv * np) <= d <= nv * np).
  { set (m := nv * np) in *. split.
    - destruct (Rle_or_lt (- m) d); [assumption | exfalso; nra].
    - destruct (Rle_or_lt d m); [assumption | exfalso; nra]. }
  split.
  - apply Rmult_le_reg_r with (nv * np); [exact Hpos|]. rewrite Hq. lra.
  - apply Rmult_le_reg_r with (nv * np); [exact Hpos|]. rewrite Hq. lra.
Qed.

End ExactCosine.


Lemma exact_unit_norm_not_zero : feqb (np_linalg_norm [1%R]) fzero = false.
Proof.
  cbn. destruct (Req_dec_T (sqrt (0 + 1 * 1)) 0) as [E|_]; [|reflexivity].
  exfalso. replace (0 + 1 * 1)%R with 1%R in E by lra. rewrite sqrt_1 in E. lra.
Qed.



(* ------------------------------------------------------------------ *)
(** ** The embedding cache *)

Module CacheFacts.
Import Cache CacheNotions.

Lemma items_eqb_eq (items : list json) :
  forall phrases, items_eqb items phrases = true <-> items = map JString phrases.
Proof.
  induction items as [|x items IH]; intros [|p phrases]; cbn [items_eqb map].
  - split; reflexivity.
  - split; discriminate.
  - split; [|discriminate]. destruct x; discriminate.
  - destruct x; try (split; [discriminate | intros E; inversion E]).
    rewrite andb_true_iff, String.eqb_eq, IH. split.
    + intros [-> ->]. reflexivity.
    + intros E. inversion E. split; reflexivity.
Qed.

Lemma map_JString_inj (a b : list string) : map JString a = map JString b -> a = b.
Proof.
  revert b. induction a as [|x a IH]; intros [|y b] E; cbn in E; try discriminate.
  - reflexivity.
  - inversion E. f_equal. now apply IH.
Qed.

Lemma equals_phrases_eq (v : option json) (phrases : list string) :
  equals_phrases v phrases = true <-> v = Some (JArray (map JString phrases)).
Proof.
  unfold equals_phrases. destruct v as [[| | | |items|]|]; try (split; [discriminate|]).
  all: try (intros E; inversion E).
  rewrite items_eqb_eq. split; [intros ->; reflexivity | intros E; now inversion E].
Qed.

Lemma equals_phrases_refl (phrases : list string) :
  equals_phrases (Some (JArray (map JString phrases))) phrases = true.
Proof. now apply equals_phrases_eq. Qed.

(** The file holds an object with the current phrases and an
    ["embeddings"] member [v]: [v] is stored, and the answer is whether
    [len(v)] could be logged. *)
Lemma load_match (J : JsonLib) (self : CrisisDetector) (d : disk)
      (text : string) (members : list (string * json)) (v : json) :
  cache_file d = Some (Contents text) ->
  loads J text = Ok (JObject members) ->
  lookup "phrases" members = Some (JArray (map JString (semantic_phrases self))) ->
  lookup "embeddings" members = Some v ->
  _load_from_cache J self d = (has_len v, set_phrase_embeddings self v).
Proof.
  intros Hfile Hload Hphr Hemb. unfold _load_from_cache, load_body.
  rewrite Hfile. cbn [read_json]. rewrite Hload. cbn [dict_get]. rewrite Hphr.
  rewrite equals_phrases_refl. cbn [getitem]. rewrite Hemb.
  cbn [phrase_embeddings set_phrase_embeddings]. unfold has_len.
  destruct (json_len v); reflexivity.
Qed.

(** In every other case nothing is stored and the answer is [False]. *)
Lemma load_cases (J : JsonLib) (self : CrisisDetector) (d : disk) :
  _load_from_cache J self d = (false, self) \/
  exists text members v,
    cache_file d = Some (Contents text) /\
    loads J text = Ok (JObject members) /\
    lookup "phrases" members = Some (JArray (map JString (semantic_phrases self))) /\
    lookup "embeddings" members = Some v.
Proof.
  unfold _load_from_cache, load_body.
  destruct (cache_file d) as [[e|text]|] eqn:Hfile; cbn [read_json]; [now left | | now left].
  destruct (loads J text) as [data|e] eqn:Hload; [|now left].
  destruct data as [| | | | |members]; cbn [dict_get]; try (now left).
  destruct (equals_phrases (lookup "phrases" members) (semantic_phrases self)) eqn:Heq;
    [|now left].
  apply equals_phrases_eq in Heq. cbn [getitem].
  destruct (lookup "embeddings" members) as [v|] eqn:Hemb; [|now left].
  right. exists text, members, v. auto.
Qed.

Lemma load_unparseable (J : JsonLib) (self : CrisisDetector) (d : disk)
      (text : string) (e : exn) :
  cache_file d = Some (Contents text) -> loads J text = Raise e ->
  _load_from_cache J self d = (false, self).
Proof.
  intros Hfile Hload. unfold _load_from_cache, load_body.
  rewrite Hfile. cbn [read_json]. now rewrite Hload.
Qed.

Lemma load_stale (J : JsonLib) (self : CrisisDetector) (d : disk)
      (text : string) (data : json) :
  cache_file d = Some (Contents text) -> loads J text = Ok data ->
  dict_get data "phrases" <> Ok (Some (JArray (map JString (semantic_phrases self)))) ->
  _load_from_cache J self d = (false, self).
Proof.
  intros Hfile Hload Hstale.
  destruct (load_cases J self d) as [H|(text' & members & v & Hfile' & Hload' & Hphr & _)];
    [exact H|].
  rewrite Hfile in Hfile'. inversion Hfile'; subst text'.
  rewrite Hload in Hload'. inversion Hload'; subst data.
  cbn [dict_get] in Hstale. rewrite Hphr in Hstale. now contradiction Hstale.
Qed.

(** Loading never touches the phrases and the provider. *)
Lemma load_keeps (J : JsonLib) (self : CrisisDetector) (d : disk) :
  semantic_phrases (snd (_load_from_cache J self d)) = semantic_phrases self /\
  embeddings_model (snd (_load_from_cache J self d)) = embeddings_model self.
Proof.
  destruct (load_cases J self d) as [H|(text & members & v & Hfile & Hload & Hphr & Hemb)].
  - rewrite H. split; reflexivity.
  - rewrite (load_match J self d text members v Hfile Hload Hphr Hemb).
    split; reflexivity.
Qed.

Lemma generate_after_load (J : JsonLib) (self : CrisisDetector) (d : disk) :
  _generate_embeddings (snd (_load_from_cache J self d)) = _generate_embeddings self.
Proof.
  destruct (load_keeps J self d) as [Hphr Hmodel].
  unfold _generate_embeddings. now rewrite Hphr, Hmodel.
Qed.

Lemma set_after_load (J : JsonLib) (self : CrisisDetector) (d : disk) (v : json) :
  set_phrase_embeddings (snd (_load_from_cache J self d)) v = set_phrase_embeddings self v.
Proof.
  destruct (load_keeps J self d) as [Hphr Hmodel].
  unfold set_phrase_embeddings. now rewrite Hphr, Hmodel.
Qed.

(** What [_initialize_embeddings] does after a load that returned [False]. *)
Lemma initialize_after_miss (J : JsonLib) (B : Buffering) (self : CrisisDetector) (d : disk) :
  fst (_load_from_cache J self d) = false ->
  _initialize_embeddings J B self d
  = if json_truthy (_generate_embeddings self)
    then (set_phrase_embeddings self (_generate_embeddings self),
          final_disk
            (_save_to_cache J B (set_phrase_embeddings self (_generate_embeddings self)) d) d)
    else (snd (_load_from_cache J self d), d).
Proof.
  intros Hmiss.
  pose proof (generate_after_load J self d) as Hgen.
  pose proof (set_after_load J self d (_generate_embeddings self)) as Hset.
  unfold _initialize_embeddings.
  destruct (_load_from_cache J self d) as [loaded self1]. cbn [fst snd] in *.
  subst loaded. rewrite Hgen, Hset. reflexivity.
Qed.

(** C5. [_load_from_cache] returns [False] and leaves the detector as it
    is when the file does not exist, cannot be read, cannot be parsed, or
    parses to a value whose ["phrases"] member is not the list of the
    current phrases, same strings in the same order.  A cache saved for
    the phrases [saved] is refused unless [saved] is the current list, and
    then its ["embeddings"] member is what the detector holds afterwards;
    the answer is [True] exactly when the phrases match, the member is
    there and [len] of it can be logged.  The embeddings of the detector
    change only on an exact match, the phrases and the provider never;
    after a [False], [_initialize_embeddings] generates the embeddings
    anew and the detector holds what was generated, when that is not
    empty. *)
Theorem load_from_cache_exact_match (J : JsonLib) (self : CrisisDetector) (d : disk) :
  (cache_file d = None -> _load_from_cache J self d = (false, self)) /\
  (forall e, cache_file d = Some (Unreadable e) -> _load_from_cache J self d = (false, self)) /\
  (forall text e,
      cache_file d = Some (Contents text) -> loads J text = Raise e ->
      _load_from_cache J self d = (false, self)) /\
  (forall text data,
      cache_file d = Some (Contents text) -> loads J text = Ok data ->
      dict_get data "phrases" <> Ok (Some (JArray (map JString (semantic_phrases self)))) ->
      _load_from_cache J self d = (false, self)) /\
  (forall text saved embeddings,
      cache_file d = Some (Contents text) ->
      loads J text
      = Ok (JObject [("phrases", JArray (map JString saved)); ("embeddings", embeddings)]) ->
      (saved <> semantic_phrases self -> _load_from_cache J self d = (false, self)) /\
      (saved = semantic_phrases self ->
       fst (_load_from_cache J self d) = has_len embeddings /\
       phrase_embeddings (snd (_load_from_cache J self d)) = embeddings)) /\
  (fst (_load_from_cache J self d) = true <->
   exists text members v n,
     cache_file d = Some (Contents text) /\
     loads J text = Ok (JObject members) /\
     lookup "phrases" members = Some (JArray (map JString (semantic_phrases self))) /\
     lookup "embeddings" members = Some v /\
     json_len v = Ok n) /\
  (fst (_load_from_cache J self d) = true \/
   phrase_embeddings (snd (_load_from_cache J self d)) <> phrase_embeddings self ->
   exists text members,
     cache_file d = Some (Contents text) /\
     loads J text = Ok (JObject members) /\
     lookup "phrases" members = Some (JArray (map JString (semantic_phrases self))) /\
     lookup "embeddings" members
     = Some (phrase_embeddings (snd (_load_from_cache J self d)))) /\
  (semantic_phrases (snd (_load_from_cache J self d)) = semantic_phrases self /\
   embeddings_model (snd (_load_from_cache J self d)) = embeddings_model self) /\
  (forall B,
      fst (_load_from_cache J self d) = false ->
      json_truthy (_generate_embeddings self) = true ->
      phrase_embeddings (fst (_initialize_embeddings J B self d))
      = _generate_embeddings self).
Proof.
  split; [|split; [|split; [|split; [|split; [|split; [|split; [|split]]]]]]].
  - intros Hfile. unfold _load_from_cache. now rewrite Hfile.
  - intros e Hfile. unfold _load_from_cache. now rewrite Hfile.
  - intros text e. apply load_unparseable.
  - intros text data. apply load_stale.
  - intros text saved embeddings Hfile Hload. split.
    + intros Hdiff. apply (load_stale J self d text _ Hfile Hload).
      cbn. intros E. inversion E as [Hmap]. apply map_JString_inj in Hmap. contradiction.
    + intros ->.
      rewrite (load_match J self d text _ embeddings Hfile Hload eq_refl eq_refl).
      split; reflexivity.
  - split.
    + intros Htrue.
      destruct (load_cases J self d) as [H|(text & members & v & Hfile & Hload & Hphr & Hemb)].
      * rewrite H in Htrue. discriminate.
      * rewrite (load_match J self d text members v Hfile Hload Hphr Hemb) in Htrue.
        cbn [fst] in Htrue. unfold has_len in Htrue.
        destruct (json_len v) as [n|e] eqn:Hlen; [|discriminate].
        exists text, members, v, n. auto.
    + intros (text & members & v & n & Hfile & Hload & Hphr & Hemb & Hlen).
      rewrite (load_match J self d text members v Hfile Hload Hphr Hemb).
      cbn [fst]. unfold has_len. now rewrite Hlen.
  - intros Hchange.
    destruct (load_cases J self d) as [H|(text & members & v & Hfile & Hload & Hphr & Hemb)].
    + rewrite H in Hchange. cbn [fst snd] in Hchange.
      destruct Hchange as [Hc|Hc]; [discriminate | now contradiction Hc].
    + rewrite (load_match J self d text members v Hfile Hload Hphr Hemb).
      exists text, members. auto.
  - apply load_keeps.
  - intros B Hmiss Hgen. rewrite (initialize_after_miss J B self d Hmiss), Hgen.
    reflexivity.
Qed.

(** A cache saved for the current phrases is loaded; the same file is stale
    once the two phrases are swapped. *)
Example load_saved_cache :
  _load_from_cache CacheExamples.sample_json
    (CacheExamples.detector_with CacheExamples.two_phrases (JArray []))
    CacheExamples.old_disk
  = (true, CacheExamples.detector_with CacheExamples.two_phrases CacheExamples.old_embeddings).
Proof. vm_compute. reflexivity. Qed.

Example load_after_reordering :
  _load_from_cache CacheExamples.sample_json
    (CacheExamples.detector_with (rev CacheExamples.two_phrases) (JArray []))
    CacheExamples.old_disk
  = (false, CacheExamples.detector_with (rev CacheExamples.two_phrases) (JArray [])).
Proof. vm_compute. reflexivity. Qed.

(** A cache whose ["embeddings"] member is [null]: the phrases match, the
    member is stored, [len(None)] raises and the answer is [False]. *)
Example load_null_embeddings :
  _load_from_cache CacheExamples.sample_json
    (CacheExamples.detector_with CacheExamples.two_phrases CacheExamples.old_embeddings)
    CacheExamples.null_disk
  = (false, CacheExamples.detector_with CacheExamples.two_phrases JNull).
Proof. vm_compute. reflexivity. Qed.

Lemma load_from_cache_exact_match_witness :
  fst (_load_from_cache CacheExamples.sample_json
         (CacheExamples.detector_with CacheExamples.two_phrases (JArray []))
         CacheExamples.old_disk)
  = has_len CacheExamples.old_embeddings /\
  phrase_embeddings
    (snd (_load_from_cache CacheExamples.sample_json
            (CacheExamples.detector_with CacheExamples.two_phrases (JArray []))
            CacheExamples.old_disk))
  = CacheExamples.old_embeddings.
Proof.
  apply (proj2 (proj1 (proj2 (proj2 (proj2 (proj2
           (load_from_cache_exact_match CacheExamples.sample_json
              (CacheExamples.detector_with CacheExamples.two_phrases (JArray []))
              CacheExamples.old_disk)))))
           (CacheExamples.dumps CacheExamples.old_entry)
           CacheExamples.two_phrases CacheExamples.old_embeddings
           eq_refl eq_refl)).
  reflexivity.
Defined.

Lemma substring_prefix (s : string) :
  forall n, prefix (substring 0 n s) s = true.
Proof.
  induction s as [|c s IH]; intros [|n]; cbn; try reflexivity.
  rewrite IH. destruct (ascii_dec c c); [reflexivity | contradiction].
Qed.

Lemma prefix_refl (s : string) : prefix s s = true.
Proof.
  induction s as [|c s IH]; cbn; [reflexivity|].
  destruct (ascii_dec c c); [exact IH | contradiction].
Qed.

(** The states of a save: the disk as it was, the empty file, the
    flushes, the whole text. *)
Lemma save_states (J : JsonLib) (B : Buffering) (self : CrisisDetector) (d : disk) :
  writable d = true ->
  _save_to_cache J B self d
  = (d :: with_contents d ""
       :: map (fun n => with_contents d
                          (substring 0 n (String.concat "" (fst (iterencode J (cache_entry self))))))
              (B (fst (iterencode J (cache_entry self)))))
    ++ [with_contents d (String.concat "" (fst (iterencode J (cache_entry self))))].
Proof.
  intros Hw. unfold _save_to_cache. rewrite Hw. reflexivity.
Qed.

(** The disk a save leaves, when the file can be opened for writing. *)
Lemma final_disk_after_save (J : JsonLib) (B : Buffering) (self : CrisisDetector) (d : disk) :
  writable d = true ->
  final_disk (_save_to_cache J B self d) d
  = with_contents d (String.concat "" (fst (iterencode J (cache_entry self)))).
Proof.
  intros Hw. unfold final_disk. rewrite (save_states J B self d Hw). apply last_last.
Qed.

(** Nothing is written when the file cannot be opened for writing. *)
Lemma final_disk_read_only (J : JsonLib) (B : Buffering) (self : CrisisDetector) (d : disk) :
  writable d = false -> final_disk (_save_to_cache J B self d) d = d.
Proof.
  intros Hw. unfold final_disk, _save_to_cache. now rewrite Hw.
Qed.

(** C8, as the code has it.  [_save_to_cache] writes the destination file
    itself: there is no other file and no rename.  Opening the file cuts
    it to length zero, so the first state a concurrent reader can see
    after the old one is the empty file; every state from the open on
    holds a beginning of the new text, whatever the buffering is; the
    last state holds all the text [json.dump] produced.  A
    [_load_from_cache] that runs on a state whose text does not parse
    returns [False] and changes nothing in its detector, and the empty
    file is such a state. *)
Theorem save_to_cache_in_place (J : JsonLib) (B : Buffering)
        (self reader : CrisisDetector) (d : disk) :
  writable d = true ->
  let text := String.concat "" (fst (iterencode J (cache_entry self))) in
  let states := _save_to_cache J B self d in
  nth_error states 0 = Some d /\
  nth_error states 1 = Some (with_contents d "") /\
  final_disk states d = with_contents d text /\
  (forall k s,
      nth_error states (S k) = Some s ->
      exists t, s = with_contents d t /\ prefix t text = true) /\
  (forall s t e,
      In s states -> cache_file s = Some (Contents t) -> loads J t = Raise e ->
      _load_from_cache J reader s = (false, reader)) /\
  (forall e,
      loads J "" = Raise e ->
      In (with_contents d "") states /\
      _load_from_cache J reader (with_contents d "") = (false, reader)).
Proof.
  intros Hw text states. unfold states. rewrite (final_disk_after_save J B self d Hw).
  rewrite (save_states J B self d Hw). fold text.
  split; [reflexivity|]. split; [reflexivity|]. split; [reflexivity|].
  split; [|split].
  - intros k s Hs. cbn [app nth_error] in Hs. apply nth_error_In in Hs.
    destruct Hs as [<-|Hs]; [exists ""; split; [reflexivity | now destruct text]|].
    apply in_app_or in Hs. destruct Hs as [Hs|[<-|[]]].
    + apply in_map_iff in Hs. destruct Hs as (n & <- & _).
      exists (substring 0 n text). split; [reflexivity | apply substring_prefix].
    + exists text. split; [reflexivity | apply prefix_refl].
  - intros s t e _ Hfile Hload. exact (load_unparseable J reader s t e Hfile Hload).
  - intros e Hload. split; [right; left; reflexivity|].
    exact (load_unparseable J reader (with_contents d "") "" e eq_refl Hload).
Qed.

Lemma save_to_cache_in_place_witness :
  final_disk
    (_save_to_cache CacheExamples.sample_json CacheExamples.small_file
       (CacheExamples.detector_with CacheExamples.two_phrases CacheExamples.new_embeddings)
       CacheExamples.old_disk)
    CacheExamples.old_disk
  = with_contents CacheExamples.old_disk
      (String.concat ""
         (fst (iterencode CacheExamples.sample_json
                 (cache_entry (CacheExamples.detector_with CacheExamples.two_phrases
                                 CacheExamples.new_embeddings))))).
Proof.
  apply (save_to_cache_in_place CacheExamples.sample_json CacheExamples.small_file
           (CacheExamples.detector_with CacheExamples.two_phrases CacheExamples.new_embeddings)
           (CacheExamples.detector_with CacheExamples.two_phrases (JArray []))
           CacheExamples.old_disk).
  reflexivity.
Defined.

(** C8 fails as it is worded.  The disk holds a valid cache and a save of
    new embeddings for the same phrases is under way; the entry is
    shorter than the buffer, so nothing reaches the file before the
    close.  The state after the open holds the empty file: it is neither
    the old text nor the new one, and a load that runs then returns
    [False], where a load before the save and a load after it both return
    [True]. *)
Lemma save_exposes_truncated_file :
  nth_error
    (_save_to_cache CacheExamples.sample_json CacheExamples.small_file
       (CacheExamples.detector_with CacheExamples.two_phrases CacheExamples.new_embeddings)
       CacheExamples.old_disk) 1
  = Some {| cache_file := Some (Contents ""); writable := true |} /\
  fst (_load_from_cache CacheExamples.sample_json
         (CacheExamples.detector_with CacheExamples.two_phrases (JArray []))
         CacheExamples.old_disk) = true /\
  fst (_load_from_cache CacheExamples.sample_json
         (CacheExamples.detector_with CacheExamples.two_phrases (JArray []))
         {| cache_file := Some (Contents ""); writable := true |}) = false /\
  fst (_load_from_cache CacheExamples.sample_json
         (CacheExamples.detector_with CacheExamples.two_phrases (JArray []))
         (final_disk
            (_save_to_cache CacheExamples.sample_json CacheExamples.small_file
               (CacheExamples.detector_with CacheExamples.two_phrases
                  CacheExamples.new_embeddings)
               CacheExamples.old_disk)
            CacheExamples.old_disk)) = true.
Proof.
  repeat split; vm_compute; reflexivity.
Qed.

End CacheFacts.

(* ------------------------------------------------------------------ *)
(** ** The alert providers and the dispatcher *)

Ltac unfold_io :=
  unfold io_try, io_bind, log, emit, ret, raise, twilio_to in *.

(** [TwilioProvider.send_alert] returns a bool; it is [True] exactly when
    both credentials are set, the client is built, the payload has a phone
    number and Twilio accepts the message. *)
Lemma twilio_send_alert_returns (self : TwilioProvider) (data : payload) (net : Network) :
  exists b t,
    twilio_send_alert self data net = (Ok b, t) /\
    invocations SMS t = 0 /\ invocations Telegram t = 0 /\
    (b = true <->
     truthy (account_sid self) = true /\
     truthy (auth_token self) = true /\
     twilio_client net (fmt (account_sid self)) (fmt (auth_token self)) = Ok tt /\
     exists p sid,
       payload_get data "phone_number" = Some p /\
       messages_create net (messaging_service_sid self) (payload_get data "message")
         (to_number p) = Ok sid).
Proof.
  unfold twilio_send_alert.
  destruct (truthy (account_sid self)) eqn:Hsid; cbn [negb orb].
  2:{ unfold_io. cbn. do 2 eexists. split; [reflexivity|]. repeat split; try discriminate.
      intros (E & _); discriminate. }
  destruct (truthy (auth_token self)) eqn:Htok; cbn [negb orb].
  2:{ unfold_io. cbn. do 2 eexists. split; [reflexivity|]. repeat split; try discriminate.
      intros (_ & E & _); discriminate. }
  unfold_io.
  destruct (twilio_client net _ _) as [[]|e] eqn:Hclient; cbn.
  2:{ do 2 eexists. split; [reflexivity|]. repeat split; try discriminate.
      intros (_ & _ & E & _); discriminate. }
  destruct (payload_get data "phone_number") as [p|] eqn:Hphone; cbn.
  2:{ do 2 eexists. split; [reflexivity|]. repeat split; try discriminate.
      intros (_ & _ & _ & q & sid & E & _); discriminate. }
  destruct (messages_create net _ _ (to_number p)) as [sid|e] eqn:Hcreate; cbn.
  - do 2 eexists. split; [reflexivity|]. repeat split; try discriminate.
    exists p, sid. split; [reflexivity | exact Hcreate].
  - do 2 eexists. split; [reflexivity|]. repeat split; try discriminate.
    intros (_ & _ & _ & q & sid & E & Hq). inversion E; subst q. congruence.
Qed.

(** [TelegramProvider.send_alert] returns a bool; it is [True] exactly when
    the token and the chat are set and the request is answered with 200. *)
Lemma telegram_send_alert_returns (self : TelegramProvider) (data : payload) (net : Network) :
  exists b t,
    telegram_send_alert self data net = (Ok b, t) /\
    invocations SMS t = 0 /\ invocations Telegram t = 0 /\
    (b = true <->
     truthy (bot_token self) = true /\
     truthy (chat_id self) = true /\
     exists body,
       requests_post net (base_url self) (fmt (chat_id self)) (payload_get data "message")
         "Markdown" = Ok (200, body)).
Proof.
  unfold telegram_send_alert.
  destruct (truthy (bot_token self)) eqn:Htok; cbn [negb orb].
  2:{ unfold_io. cbn. do 2 eexists. split; [reflexivity|]. repeat split; try discriminate.
      intros (E & _); discriminate. }
  destruct (truthy (chat_id self)) eqn:Hchat; cbn [negb orb].
  2:{ unfold_io. cbn. do 2 eexists. split; [reflexivity|]. repeat split; try discriminate.
      intros (_ & E & _); discriminate. }
  unfold_io.
  destruct (requests_post net _ _ _ _) as [[status body]|e] eqn:Hpost; cbn [fst].
  - destruct (Nat.eqb_spec status 200) as [->|Hstatus]; cbn.
    + do 2 eexists. split; [reflexivity|]. repeat split; try discriminate.
      exists body. reflexivity.
    + do 2 eexists. split; [reflexivity|]. repeat split; try discriminate.
      intros (_ & _ & body' & E). inversion E. contradiction.
  - cbn. do 2 eexists. split; [reflexivity|]. repeat split; try discriminate.
    intros (_ & _ & body' & E). discriminate.
Qed.

Lemma telegram_trace_no_twilio (self : TelegramProvider) (data : payload) (net : Network) :
  existsb is_twilio_request (snd (telegram_send_alert self data net)) = false.
Proof.
  unfold telegram_send_alert.
  destruct (truthy (bot_token self)); cbn [negb orb]; [|reflexivity].
  destruct (truthy (chat_id self)); cbn [negb orb]; [|reflexivity].
  unfold_io.
  destruct (requests_post net _ _ _ _) as [[status body]|e]; cbn [fst]; [|reflexivity].
  destruct (status =? 200); reflexivity.
Qed.

Lemma invocations_app (ch : channel) (a b : list event) :
  invocations ch (a ++ b) = invocations ch a + invocations ch b.
Proof.
  unfold invocations. now rewrite filter_app, length_app.
Qed.

Section Failover.
Context {P1 P2 : Type} `{AlertProvider P1} `{AlertProvider P2}.
Variable self : AlertDispatcher P1 P2.
Variables user_name reason location short_message : string.
Variable net : Network.

Let sdata : payload := sms_data self user_name reason location short_message.
Let tdata : payload := telegram_data user_name reason location short_message.

(** What the fallback leaves in the trace. *)
Let fallback (b2 : bool) (t2 : list event) : list event :=
  [Logged WARNING; Invoked Telegram tdata] ++ t2 ++ (if b2 then [] else [Logged CRITICAL]).

(** No helpline number: the primary provider is not called and the backup is. *)
Lemma trigger_alert_unconfigured (b2 : bool) (t2 : list event) :
  truthy (helpline_number self) = false ->
  send_alert (telegram_provider self) tdata net = (Ok b2, t2) ->
  trigger_alert self user_name reason location short_message net
  = (Ok tt, Logged WARNING :: fallback b2 t2).
Proof.
  intros Hline Hsend. unfold trigger_alert, invoke. rewrite Hline.
  unfold tdata, telegram_data in Hsend.
  unfold_io. cbn [negb]. cbv beta. rewrite Hsend. destruct b2; reflexivity.
Qed.

(** The primary provider returns [True]: the backup is not called. *)
Lemma trigger_alert_primary_success (t1 : list event) :
  truthy (helpline_number self) = true ->
  send_alert (sms_provider self) sdata net = (Ok true, t1) ->
  trigger_alert self user_name reason location short_message net
  = (Ok tt, [Logged INFO; Invoked SMS sdata] ++ t1 ++ [Logged INFO]).
Proof.
  intros Hline Hsend. unfold trigger_alert, invoke. rewrite Hline.
  unfold sdata, sms_data in Hsend.
  unfold_io. cbv beta. rewrite Hsend. reflexivity.
Qed.

(** The primary provider returns [False]: the backup is called next. *)
Lemma trigger_alert_primary_failure (t1 : list event) (b2 : bool) (t2 : list event) :
  truthy (helpline_number self) = true ->
  send_alert (sms_provider self) sdata net = (Ok false, t1) ->
  send_alert (telegram_provider self) tdata net = (Ok b2, t2) ->
  trigger_alert self user_name reason location short_message net
  = (Ok tt, [Logged INFO; Invoked SMS sdata] ++ t1 ++ fallback b2 t2).
Proof.
  intros Hline Hsend1 Hsend2. unfold trigger_alert, invoke. rewrite Hline.
  unfold sdata, sms_data in Hsend1. unfold tdata, telegram_data in Hsend2.
  unfold_io. cbv beta. rewrite Hsend1. cbn [negb]. cbv beta. rewrite Hsend2.
  destruct b2; reflexivity.
Qed.

End Failover.

(** [trigger_alert] ends normally with the providers of the source. *)
Lemma backup_failover_total
      (self : AlertDispatcher TwilioProvider TelegramProvider)
      (user_name reason location short_message : string) (net : Network) :
  fst (trigger_alert self user_name reason location short_message net) = Ok tt.
Proof.
  destruct (twilio_send_alert_returns (sms_provider self)
              (sms_data self user_name reason location short_message) net)
    as (b1 & t1 & Hsms & _).
  destruct (telegram_send_alert_returns (telegram_provider self)
              (telegram_data user_name reason location short_message) net)
    as (b2 & t2 & Htg & _).
  assert (Hsms' : send_alert (sms_provider self)
                    (sms_data self user_name reason location short_message) net
                  = (Ok b1, t1)) by exact Hsms.
  assert (Htg' : send_alert (telegram_provider self)
                   (telegram_data user_name reason location short_message) net
                 = (Ok b2, t2)) by exact Htg.
  destruct (truthy (helpline_number self)) eqn:Hline.
  - destruct b1.
    + now rewrite (trigger_alert_primary_success self user_name reason location
                     short_message net t1 Hline Hsms').
    + now rewrite (trigger_alert_primary_failure self user_name reason location
                     short_message net t1 b2 t2 Hline Hsms' Htg').
  - now rewrite (trigger_alert_unconfigured self user_name reason location
                   short_message net b2 t2 Hline Htg').
Qed.

(** C3. For the dispatcher of the source, whatever the network does:
    [trigger_alert] ends normally; the backup provider is called once when
    the primary did not report success and not at all when it did; the
    primary provider is called once when a helpline number is configured
    and not at all otherwise, in which case no request goes to Twilio and
    the backup is called; and when both are called the primary comes
    first. *)
Theorem backup_iff_primary_failed
        (self : AlertDispatcher TwilioProvider TelegramProvider)
        (user_name reason location short_message : string) (net : Network) :
  let run := trigger_alert self user_name reason location short_message net in
  fst run = Ok tt /\
  invocations Telegram (snd run)
  = (if primary_reports_success self user_name reason location short_message net
     then 0 else 1) /\
  invocations SMS (snd run) = (if truthy (helpline_number self) then 1 else 0) /\
  (truthy (helpline_number self) = false ->
   primary_reports_success self user_name reason location short_message net = false /\
   existsb is_twilio_request (snd run) = false) /\
  (invocations SMS (snd run) = 1 ->
   invocations Telegram (snd run) = 1 ->
   exists before between after d d',
     snd run = before ++ Invoked SMS d :: between ++ Invoked Telegram d' :: after).
Proof.
  intros run. subst run.
  destruct (twilio_send_alert_returns (sms_provider self)
              (sms_data self user_name reason location short_message) net)
    as (b1 & t1 & Hsms & Hs1 & Ht1 & _).
  destruct (telegram_send_alert_returns (telegram_provider self)
              (telegram_data user_name reason location short_message) net)
    as (b2 & t2 & Htg & Hs2 & Ht2 & _).
  pose proof (telegram_trace_no_twilio (telegram_provider self)
                (telegram_data user_name reason location short_message) net) as Hno.
  rewrite Htg in Hno. cbn [snd] in Hno.
  assert (Hsms' : send_alert (sms_provider self)
                    (sms_data self user_name reason location short_message) net
                  = (Ok b1, t1)) by exact Hsms.
  assert (Htg' : send_alert (telegram_provider self)
                   (telegram_data user_name reason location short_message) net
                 = (Ok b2, t2)) by exact Htg.
  assert (Hcrit : forall ch, invocations ch (if b2 then [] else [Logged CRITICAL]) = 0)
    by (intros ch; destruct b2; reflexivity).
  unfold primary_reports_success. rewrite Hsms'. cbn [fst].
  destruct (truthy (helpline_number self)) eqn:Hline; cbn [andb].
  - destruct b1.
    + rewrite (trigger_alert_primary_success self user_name reason location short_message
                 net t1 Hline Hsms').
      cbn [fst snd]. rewrite !invocations_app, Hs1, Ht1.
      split; [reflexivity|]. split; [reflexivity|]. split; [reflexivity|].
      split; [discriminate|]. intros _ E. discriminate E.
    + rewrite (trigger_alert_primary_failure self user_name reason location short_message
                 net t1 b2 t2 Hline Hsms' Htg').
      cbn [fst snd]. rewrite !invocations_app, Hs1, Ht1, Hs2, Ht2, !Hcrit.
      split; [reflexivity|]. split; [reflexivity|]. split; [reflexivity|].
      split; [discriminate|]. intros _ _.
      exists [Logged INFO], (t1 ++ [Logged WARNING]),
        (t2 ++ (if b2 then [] else [Logged CRITICAL])),
        (sms_data self user_name reason location short_message),
        (telegram_data user_name reason location short_message).
      cbn [app]. now rewrite <- app_assoc.
  - rewrite (trigger_alert_unconfigured self user_name reason location short_message
               net b2 t2 Hline Htg').
    cbn [fst snd].
    change (Logged WARNING :: ?l) with ([Logged WARNING] ++ l).
    rewrite !invocations_app, Hs2, Ht2, !Hcrit.
    split; [reflexivity|]. split; [reflexivity|]. split; [reflexivity|].
    split.
    + intros _. split; [reflexivity|].
      rewrite !existsb_app, Hno. destruct b2; reflexivity.
    + intros E. discriminate E.
Qed.

(** The scenario of [tests/test_alerts_mock.py], with the providers of the
    source: the SMS goes out with the name and the place in it, and the
    backup is not called. *)
Example trigger_alert_sms_delivered :
  trigger_alert (configured_dispatcher (Some "1234567890"))
    "Rishabh" "Test Reason" "Pune" "Help me" sms_up
  = (Ok tt,
     [ Logged INFO;
       Invoked SMS
         [ ("phone_number", Some "1234567890");
           ("message",
            Some "CRISIS ALERT: User Rishabh at Pune. Reason: Test Reason. Msg: Help me") ];
       Logged INFO;
       TwilioCreate (Some "MG1")
         (Some "CRISIS ALERT: User Rishabh at Pune. Reason: Test Reason. Msg: Help me")
         "+911234567890";
       Logged INFO;
       Logged INFO ]).
Proof. vm_compute. reflexivity. Qed.

(** Twilio is down: the backup is called after the primary. *)
Example trigger_alert_falls_back :
  map (is_invocation Telegram)
    (snd (trigger_alert (configured_dispatcher (Some "1234567890"))
            "Rishabh" "Test Reason" "Pune" "Help me" sms_down))
  = [false; false; false; false; false; false; true; false; false].
Proof. vm_compute. reflexivity. Qed.

(** C4. No exception leaves [detect], a provider's [send_alert] or
    [trigger_alert]: each returns a value for every input and every
    behaviour of the services it calls.  A provider returns [False] when a
    credential is missing, and [True] only when the service it calls
    accepted the message; every other case, an exception of the service
    among them, is [False]. *)
Theorem no_exception_escapes :
  (forall (F : Type) (Fl : Float64 F) (self : CrisisDetector F) (text : string),
      exists is_crisis reason, detect self text = Ok (is_crisis, reason)) /\
  (forall (self : TwilioProvider) (data : payload) (net : Network),
      exists b trace,
        send_alert self data net = (Ok b, trace) /\
        (truthy (account_sid self) = false \/ truthy (auth_token self) = false ->
         b = false) /\
        (b = true <->
         truthy (account_sid self) = true /\
         truthy (auth_token self) = true /\
         twilio_client net (fmt (account_sid self)) (fmt (auth_token self)) = Ok tt /\
         exists p sid,
           payload_get data "phone_number" = Some p /\
           messages_create net (messaging_service_sid self) (payload_get data "message")
             (to_number p) = Ok sid)) /\
  (forall (self : TelegramProvider) (data : payload) (net : Network),
      exists b trace,
        send_alert self data net = (Ok b, trace) /\
        (truthy (bot_token self) = false \/ truthy (chat_id self) = false -> b = false) /\
        (b = true <->
         truthy (bot_token self) = true /\
         truthy (chat_id self) = true /\
         exists body,
           requests_post net (base_url self) (fmt (chat_id self))
             (payload_get data "message") "Markdown" = Ok (200, body))) /\
  (forall (self : AlertDispatcher TwilioProvider TelegramProvider)
          (user_name reason location short_message : string) (net : Network),
      exists trace,
        trigger_alert self user_name reason location short_message net = (Ok tt, trace)).
Proof.
  split; [|split; [|split]].
  - intros F Fl self text.
    destruct (detect_cases self text) as [E|[E|E]]; rewrite E; eauto.
  - intros self data net.
    destruct (twilio_send_alert_returns self data net) as (b & t & Hrun & _ & _ & Hb).
    exists b, t. split; [exact Hrun|]. split; [|exact Hb].
    intros Hmissing. destruct b; [|reflexivity].
    destruct (proj1 Hb eq_refl) as (Hsid & Htok & _).
    destruct Hmissing; congruence.
  - intros self data net.
    destruct (telegram_send_alert_returns self data net) as (b & t & Hrun & _ & _ & Hb).
    exists b, t. split; [exact Hrun|]. split; [|exact Hb].
    intros Hmissing. destruct b; [|reflexivity].
    destruct (proj1 Hb eq_refl) as (Htok & Hchat & _).
    destruct Hmissing; congruence.
  - intros self user_name reason location short_message net.
    pose proof (backup_failover_total self user_name reason location short_message net)
      as Hrun.
    destruct (trigger_alert self user_name reason location short_message net) as [r trace].
    cbn in Hrun. subst r. exists trace. reflexivity.
Qed.

Lemma backup_iff_primary_failed_witness :
  primary_reports_success (configured_dispatcher None)
    "Rishabh" "Test Reason" "Pune" "Help me" sms_up = false /\
  existsb is_twilio_request
    (snd (trigger_alert (configured_dispatcher None)
            "Rishabh" "Test Reason" "Pune" "Help me" sms_up)) = false.
Proof.
  apply (proj1 (proj2 (proj2 (proj2
           (backup_iff_primary_failed (configured_dispatcher None)
              "Rishabh" "Test Reason" "Pune" "Help me" sms_up))))).
  reflexivity.
Defined.

Lemma no_exception_escapes_witness :
  exists b trace,
    send_alert {| account_sid := None; auth_token := Some "token";
                  messaging_service_sid := None |}
      [("phone_number", Some "1234567890"); ("message", Some "Help me")] sms_up
    = (Ok b, trace) /\
    b = false.
Proof.
  destruct (proj1 (proj2 no_exception_escapes)
              {| account_sid := None; auth_token := Some "token";
                 messaging_service_sid := None |}
              [("phone_number", Some "1234567890"); ("message", Some "Help me")] sms_up)
    as (b & trace & Hrun & Hmissing & _).
  exists b, trace. split; [exact Hrun|]. apply Hmissing. left. reflexivity.
Defined.

(* ------------------------------------------------------------------ *)
(** ** Further properties *)



Lemma prefix_app (p s : string) : prefix p (p ++ s) = true.
Proof.
  induction p as [|c p IH]; cbn [append]; [destruct s; reflexivity|].
  cbn [prefix]. destruct (ascii_dec c c) as [_|Hne]; [exact IH | contradiction Hne; reflexivity].
Qed.

Lemma re_search_here (p s : string) : prefix p s = true -> re_search p s = true.
Proof.
  intros Hp. destruct s; cbn [re_search]; now rewrite Hp.
Qed.

Lemma re_search_app (p a s : string) : re_search p s = true -> re_search p (a ++ s) = true.
Proof.
  intros Hs. induction a as [|c a IH]; cbn [append]; [exact Hs|].
  cbn [re_search]. rewrite IH. apply orb_true_r.
Qed.

(** The message handed to each provider holds the user name and the
    location it was built from, as [tests/test_alerts_mock.py] checks for
    the primary one. *)
Theorem alert_messages_hold_name_and_location
        (user_name reason location short_message : string) :
  re_search user_name (sms_message user_name reason location short_message) = true /\
  re_search location (sms_message user_name reason location short_message) = true /\
  re_search user_name (telegram_message user_name reason location short_message) = true /\
  re_search location (telegram_message user_name reason location short_message) = true.
Proof.
  unfold sms_message, telegram_message.
  repeat split;
    repeat first [ apply re_search_here, prefix_app | apply re_search_app ].
Qed.

(* ------------------------------------------------------------------ *)
(** ** The cache: saving, loading again, and start-up *)

Module CacheRoundTrip.
Import Cache CacheNotions.

(** Loading a file that holds the entry of [saved]. *)
Lemma load_entry (J : JsonLib) (saved reader : CrisisDetector) (d : disk) (text : string) :
  cache_file d = Some (Contents text) ->
  loads J text = Ok (cache_entry saved) ->
  _load_from_cache J reader d
  = if items_eqb (map JString (semantic_phrases saved)) (semantic_phrases reader)
    then (has_len (phrase_embeddings saved),
          set_phrase_embeddings reader (phrase_embeddings saved))
    else (false, reader).
Proof.
  intros Hfile Hload.
  destruct (items_eqb _ _) eqn:Heq.
  - apply CacheFacts.items_eqb_eq in Heq.
    apply (CacheFacts.load_match J reader d text _ _ Hfile Hload); cbn; [|reflexivity].
    now rewrite Heq.
  - apply (CacheFacts.load_stale J reader d text _ Hfile Hload).
    cbn. intros E. inversion E as [Hmap].
    assert (Htrue : items_eqb (map JString (semantic_phrases saved)) (semantic_phrases reader)
                    = true) by now apply CacheFacts.items_eqb_eq.
    congruence.
Qed.

Lemma load_after_save (J : JsonLib) (B : Buffering) (self reader : CrisisDetector) (d : disk) :
  writable d = true ->
  loads J (String.concat "" (fst (iterencode J (cache_entry self)))) = Ok (cache_entry self) ->
  _load_from_cache J reader (final_disk (_save_to_cache J B self d) d)
  = if items_eqb (map JString (semantic_phrases self)) (semantic_phrases reader)
    then (has_len (phrase_embeddings self),
          set_phrase_embeddings reader (phrase_embeddings self))
    else (false, reader).
Proof.
  intros Hw Hround. rewrite (CacheFacts.final_disk_after_save J B self d Hw).
  exact (load_entry J self reader (with_contents d _) _ eq_refl Hround).
Qed.

Lemma items_eqb_same_phrases (a b : CrisisDetector) :
  items_eqb (map JString (semantic_phrases a)) (semantic_phrases b) = true
  <-> same_phrases a b.
Proof.
  unfold same_phrases. rewrite CacheFacts.items_eqb_eq. split.
  - apply CacheFacts.map_JString_inj.
  - now intros ->.
Qed.

(** Save, then load.  When the file can be written and [json] reads back
    what it wrote, a detector with the same phrases that loads the file
    the save left holds the embeddings that were saved, keeps its own
    phrases and provider, and gets [True] when [len] of the embeddings
    can be logged, as it can of every list; a detector with other phrases
    gets [False] and stays as it was. *)
Theorem save_then_load (J : JsonLib) (B : Buffering) (self reader : CrisisDetector) (d : disk) :
  writable d = true ->
  round_trips J (cache_entry self) ->
  (same_phrases self reader ->
   fst (_load_from_cache J reader (final_disk (_save_to_cache J B self d) d))
   = has_len (phrase_embeddings self) /\
   phrase_embeddings (snd (_load_from_cache J reader (final_disk (_save_to_cache J B self d) d)))
   = phrase_embeddings self /\
   semantic_phrases (snd (_load_from_cache J reader (final_disk (_save_to_cache J B self d) d)))
   = semantic_phrases reader /\
   embeddings_model (snd (_load_from_cache J reader (final_disk (_save_to_cache J B self d) d)))
   = embeddings_model reader) /\
  (forall items,
      same_phrases self reader -> phrase_embeddings self = JArray items ->
      fst (_load_from_cache J reader (final_disk (_save_to_cache J B self d) d)) = true) /\
  (~ same_phrases self reader ->
   _load_from_cache J reader (final_disk (_save_to_cache J B self d) d)
   = (false, reader)).
Proof.
  intros Hw [_ Hround]. rewrite (load_after_save J B self reader d Hw Hround).
  split; [|split].
  - intros Hsame. apply items_eqb_same_phrases in Hsame. rewrite Hsame.
    repeat split; reflexivity.
  - intros items Hsame Hitems. apply items_eqb_same_phrases in Hsame. rewrite Hsame.
    cbn [fst]. now rewrite Hitems.
  - intros Hdiff. destruct (items_eqb _ _) eqn:E; [|reflexivity].
    apply items_eqb_same_phrases in E. contradiction.
Qed.

Lemma save_then_load_witness :
  fst (_load_from_cache CacheExamples.sample_json
         (CacheExamples.detector_with CacheExamples.two_phrases (JArray []))
         (final_disk
            (_save_to_cache CacheExamples.sample_json CacheExamples.small_file
               (CacheExamples.detector_with CacheExamples.two_phrases
                  CacheExamples.new_embeddings)
               CacheExamples.old_disk)
            CacheExamples.old_disk))
  = true.
Proof.
  apply (proj1 (proj2 (save_then_load CacheExamples.sample_json CacheExamples.small_file
                  (CacheExamples.detector_with CacheExamples.two_phrases
                     CacheExamples.new_embeddings)
                  (CacheExamples.detector_with CacheExamples.two_phrases (JArray []))
                  CacheExamples.old_disk eq_refl (conj eq_refl eq_refl)))
           [JArray [JNumber "0.75"; JNumber "0.5"]; JArray [JNumber "0.0"; JNumber "1.0"]]).
  - reflexivity.
  - reflexivity.
Defined.

(** A second start.  When a start found no usable cache, generated a
    list of embeddings that is not empty and saved it, a later start of
    a detector with the same phrases holds the embeddings the first one
    generated, keeps its own phrases and provider, and leaves the disk
    as it is, whatever its own provider is or does. *)
Theorem second_start_uses_cache (J : JsonLib) (B : Buffering) (self later : CrisisDetector)
        (d : disk) (v : json) (vs : list json) :
  writable d = true ->
  fst (_load_from_cache J self d) = false ->
  _generate_embeddings self = JArray (v :: vs) ->
  round_trips J (cache_entry (fst (_initialize_embeddings J B self d))) ->
  same_phrases self later ->
  phrase_embeddings (fst (_initialize_embeddings J B self d)) = JArray (v :: vs) /\
  phrase_embeddings
    (fst (_initialize_embeddings J B later (snd (_initialize_embeddings J B self d))))
  = JArray (v :: vs) /\
  semantic_phrases
    (fst (_initialize_embeddings J B later (snd (_initialize_embeddings J B self d))))
  = semantic_phrases later /\
  embeddings_model
    (fst (_initialize_embeddings J B later (snd (_initialize_embeddings J B self d))))
  = embeddings_model later /\
  snd (_initialize_embeddings J B later (snd (_initialize_embeddings J B self d)))
  = snd (_initialize_embeddings J B self d).
Proof.
  intros Hw Hmiss Hgen Hround Hsame. revert Hround.
  rewrite (CacheFacts.initialize_after_miss J B self d Hmiss), Hgen.
  cbn [json_truthy length Nat.eqb negb fst snd]. intros [_ Hround].
  split; [reflexivity|].
  pose proof (load_after_save J B (set_phrase_embeddings self (JArray (v :: vs)))
                later d Hw Hround) as Hload.
  apply items_eqb_same_phrases in Hsame.
  cbn [semantic_phrases phrase_embeddings set_phrase_embeddings] in Hload.
  rewrite Hsame in Hload.
  unfold _initialize_embeddings. rewrite Hload.
  cbn [has_len json_len]. repeat split; reflexivity.
Qed.

Lemma second_start_uses_cache_witness :
  phrase_embeddings
    (fst (_initialize_embeddings CacheExamples.sample_json CacheExamples.small_file
            (StartExamples.starting_detector StartExamples.batch_model)
            StartExamples.empty_disk))
  = JArray [JArray [JNumber "0.75"; JNumber "0.5"]; JArray [JNumber "0.0"; JNumber "1.0"]] /\
  phrase_embeddings
    (fst (_initialize_embeddings CacheExamples.sample_json CacheExamples.small_file
            (StartExamples.starting_detector StartExamples.failing_model)
            (snd (_initialize_embeddings CacheExamples.sample_json CacheExamples.small_file
                    (StartExamples.starting_detector StartExamples.batch_model)
                    StartExamples.empty_disk))))
  = JArray [JArray [JNumber "0.75"; JNumber "0.5"]; JArray [JNumber "0.0"; JNumber "1.0"]] /\
  semantic_phrases
    (fst (_initialize_embeddings CacheExamples.sample_json CacheExamples.small_file
            (StartExamples.starting_detector StartExamples.failing_model)
            (snd (_initialize_embeddings CacheExamples.sample_json CacheExamples.small_file
                    (StartExamples.starting_detector StartExamples.batch_model)
                    StartExamples.empty_disk))))
  = semantic_phrases (StartExamples.starting_detector StartExamples.failing_model) /\
  embeddings_model
    (fst (_initialize_embeddings CacheExamples.sample_json CacheExamples.small_file
            (StartExamples.starting_detector StartExamples.failing_model)
            (snd (_initialize_embeddings CacheExamples.sample_json CacheExamples.small_file
                    (StartExamples.starting_detector StartExamples.batch_model)
                    StartExamples.empty_disk))))
  = embeddings_model (StartExamples.starting_detector StartExamples.failing_model) /\
  snd (_initialize_embeddings CacheExamples.sample_json CacheExamples.small_file
         (StartExamples.starting_detector StartExamples.failing_model)
         (snd (_initialize_embeddings CacheExamples.sample_json CacheExamples.small_file
                 (StartExamples.starting_detector StartExamples.batch_model)
                 StartExamples.empty_disk)))
  = snd (_initialize_embeddings CacheExamples.sample_json CacheExamples.small_file
           (StartExamples.starting_detector StartExamples.batch_model)
           StartExamples.empty_disk).
Proof.
  apply (second_start_uses_cache CacheExamples.sample_json CacheExamples.small_file
           (StartExamples.starting_detector StartExamples.batch_model)
           (StartExamples.starting_detector StartExamples.failing_model)
           StartExamples.empty_disk).
  - reflexivity.
  - reflexivity.
  - reflexivity.
  - split; vm_compute; reflexivity.
  - reflexivity.
Defined.

(** A cache that cannot be written costs nothing but the cache: when no
    usable cache is found and the file cannot be opened for writing, the
    detector still holds the embeddings it generated, the exception of
    the save is swallowed and the disk stays as it was; when nothing
    could be generated the detector is as the failed load left it.  Its
    phrases and its provider are the ones it had. *)
Theorem initialize_with_read_only_cache (J : JsonLib) (B : Buffering) (self : CrisisDetector)
        (d : disk) :
  fst (_load_from_cache J self d) = false ->
  writable d = false ->
  snd (_initialize_embeddings J B self d) = d /\
  (json_truthy (_generate_embeddings self) = true ->
   phrase_embeddings (fst (_initialize_embeddings J B self d)) = _generate_embeddings self) /\
  (json_truthy (_generate_embeddings self) = false ->
   fst (_initialize_embeddings J B self d) = snd (_load_from_cache J self d)) /\
  semantic_phrases (fst (_initialize_embeddings J B self d)) = semantic_phrases self /\
  embeddings_model (fst (_initialize_embeddings J B self d)) = embeddings_model self.
Proof.
  intros Hmiss Hw. rewrite (CacheFacts.initialize_after_miss J B self d Hmiss).
  destruct (CacheFacts.load_keeps J self d) as [Hphr Hmodel].
  destruct (json_truthy _); cbn [fst snd].
  - rewrite (CacheFacts.final_disk_read_only J B _ d Hw).
    repeat split; (reflexivity || discriminate).
  - repeat split; try assumption; (reflexivity || discriminate).
Qed.

Lemma initialize_with_read_only_cache_witness :
  snd (_initialize_embeddings CacheExamples.sample_json CacheExamples.small_file
         (StartExamples.starting_detector StartExamples.batch_model)
         {| cache_file := None; writable := false |})
  = {| cache_file := None; writable := false |}.
Proof.
  apply (initialize_with_read_only_cache CacheExamples.sample_json CacheExamples.small_file
           (StartExamples.starting_detector StartExamples.batch_model)
           {| cache_file := None; writable := false |}); reflexivity.
Defined.

Lemma embed_each_raise (model : EmbeddingsModel) (phrases : list string) (p : string) (e : exn) :
  In p phrases -> embed_query model p = Raise e ->
  exists e', embed_each model phrases = Raise e'.
Proof.
  induction phrases as [|q rest IH]; intros Hin Hraise; [contradiction|].
  cbn [embed_each]. destruct (embed_query model q) as [v|e0] eqn:Hq; cbn [bind].
  - destruct Hin as [->|Hin]; [congruence|].
    destruct (IH Hin Hraise) as [e' He']. rewrite He'. exists e'. reflexivity.
  - exists e0. reflexivity.
Qed.

Lemma embed_each_ok (model : EmbeddingsModel) (phrases : list string) (vs : list json) :
  Forall2 (fun p v => embed_query model p = Ok v) phrases vs ->
  embed_each model phrases = Ok vs.
Proof.
  induction 1 as [|p v phrases vs Hp _ IH]; [reflexivity|].
  cbn [embed_each]. rewrite Hp. cbn [bind]. now rewrite IH.
Qed.

(** [_generate_embeddings] never raises and gives all the embeddings or
    none.  With [embed_documents] it is the answer of that one call, or the
    empty list when the call raises, and [embed_query] is not used.
    Without it, the phrases are embedded one by one: the result is the list
    of their vectors in the order of the phrases, and the empty list as
    soon as one phrase fails. *)
Theorem generate_embeddings_all_or_nothing (self : CrisisDetector) (model : EmbeddingsModel) :
  embeddings_model self = Some model ->
  (forall f,
      embed_documents model = Some f ->
      _generate_embeddings self
      = match f (semantic_phrases self) with Ok v => v | Raise _ => JArray [] end) /\
  (embed_documents model = None ->
   (forall p e,
       In p (semantic_phrases self) -> embed_query model p = Raise e ->
       _generate_embeddings self = JArray []) /\
   (forall vs,
       Forall2 (fun p v => embed_query model p = Ok v) (semantic_phrases self) vs ->
       _generate_embeddings self = JArray vs)).
Proof.
  intros Hmodel. unfold _generate_embeddings. rewrite Hmodel. split.
  - intros f Hf. rewrite Hf. destruct (f (semantic_phrases self)); reflexivity.
  - intros Hnone. rewrite Hnone. split.
    + intros p e Hin Hraise.
      destruct (embed_each_raise model _ p e Hin Hraise) as [e' He'].
      now rewrite He'.
    + intros vs Hall. now rewrite (embed_each_ok model _ vs Hall).
Qed.

Lemma generate_embeddings_all_or_nothing_witness :
  _generate_embeddings (StartExamples.starting_detector StartExamples.failing_model)
  = JArray [].
Proof.
  apply (proj1 (proj2 (generate_embeddings_all_or_nothing
                         (StartExamples.starting_detector StartExamples.failing_model)
                         StartExamples.failing_model eq_refl) eq_refl)
           "Goodbye everyone" (ProviderError "timed out")).
  - right. left. reflexivity.
  - reflexivity.
Defined.

End CacheRoundTrip.

(* ------------------------------------------------------------------ *)
(** ** [detect]: a keyword inside a longer message *)

Lemma lower_app (a b : string) : lower (a ++ b) = (lower a ++ lower b)%string.
Proof.
  induction a as [|c a IH]; cbn [lower append]; [reflexivity | now rewrite IH].
Qed.

Lemma prefix_empty (s : string) : prefix "" s = true.
Proof. destruct s; reflexivity. Qed.

Lemma prefix_app_r (p : string) :
  forall s b, prefix p s = true -> prefix p (s ++ b) = true.
Proof.
  induction p as [|c p IH]; intros s b Hp; [apply prefix_empty|].
  destruct s as [|x s]; [discriminate|].
  cbn [prefix append] in *. destruct (ascii_dec c x); [now apply IH | discriminate].
Qed.

Lemma re_search_app_r (p s b : string) :
  re_search p s = true -> re_search p (s ++ b) = true.
Proof.
  induction s as [|x s IH]; intros Hs.
  - cbn [re_search] in Hs. rewrite orb_false_r in Hs.
    destruct p; [|discriminate]. destruct b; reflexivity.
  - cbn [re_search append] in *. apply orb_true_iff in Hs as [Hhere|Hlater].
    + change (String x (s ++ b)) with (String x s ++ b)%string.
      now rewrite (prefix_app_r p _ b Hhere).
    + rewrite (IH Hlater). apply orb_true_r.
Qed.

(** A text in which the lexical pass finds a keyword keeps being detected
    when anything is written before and after it: [detect] answers with the
    lexical reason for the longer message too, with no use of the
    provider. *)
Theorem lexical_match_survives_context
        (F : Type) (Fl : Float64 F) (self : CrisisDetector F) (text before after : string) :
  lexical_match self text = true ->
  detect self (before ++ text ++ after) = Ok (true, lexical_reason).
Proof.
  intros Hhit. unfold lexical_match in Hhit.
  apply existsb_exists in Hhit as [pattern [Hin Hfound]].
  assert (Hlong : lexical_match self (before ++ text ++ after) = true).
  { apply (lexical_match_intro self _ pattern Hin).
    rewrite !lower_app. apply re_search_app, re_search_app_r, Hfound. }
  unfold detect. now rewrite Hlong.
Qed.

Lemma lexical_match_survives_context_witness :
  detect flaky_detector ("Dear all, I " ++ "want to die" ++ " and nobody would notice.")
  = Ok (true, lexical_reason).
Proof.
  apply (lexical_match_survives_context float ieee flaky_detector
           "want to die" "Dear all, I " " and nobody would notice.").
  reflexivity.
Defined.

(* ------------------------------------------------------------------ *)
(** ** [detect]: what a semantic answer rests on *)

Section SemanticEvidence.
Context {F : Type} `{Float64 F}.

Lemma compare_phrases_total (v : list F) (n : F) (pairs : list (list F * string)) :
  (forall p t, In (p, t) pairs -> length v = length p) ->
  forall st, exists st', compare_phrases v n pairs st = Ok st'.
Proof.
  induction pairs as [|[q u] rest IH]; intros Hlen st; cbn [compare_phrases].
  - exists st. reflexivity.
  - assert (Hrest : forall p t, In (p, t) rest -> length v = length p)
      by (intros p t Hin; apply (Hlen p t); right; exact Hin).
    destruct (feqb (np_linalg_norm q) fzero); [apply (IH Hrest)|].
    unfold np_dot. rewrite (Hlen q u (or_introl eq_refl)), Nat.eqb_refl. cbn [bind].
    destruct (fgtb _ _); apply (IH Hrest).
Qed.

(** With such a provider the scan ends normally. *)
Lemma scan_chunks_total (model : EmbeddingsModel F) (pairs : list (list F * string))
      (chunks : list string) :
  provider_answers model pairs chunks ->
  forall st, exists st', scan_chunks model pairs chunks st = Ok st'.
Proof.
  induction chunks as [|chunk rest IH]; intros Hanswers st; cbn [scan_chunks].
  - exists st. reflexivity.
  - assert (Hrest : provider_answers model pairs rest)
      by (intros c Hin; apply Hanswers; right; exact Hin).
    destruct (Hanswers chunk (or_introl eq_refl)) as (v & Hv & Hlen).
    rewrite Hv. cbn [bind].
    destruct (feqb (np_linalg_norm v) fzero); [apply (IH Hrest)|].
    destruct (compare_phrases_total v (np_linalg_norm v) pairs Hlen
                {| max_score_overall := max_score_overall st;
                   best_phrase := best_phrase st;
                   threshold := Some fthreshold |}) as [st2 Hst2].
    rewrite Hst2. cbn [bind]. apply (IH Hrest).
Qed.

End SemanticEvidence.

(** A crisis found by the semantic pass rests on a score: when [detect]
    answers with the semantic reason, no keyword matched, the provider and
    the reference vectors are there, and some chunk of the text and some
    reference phrase, both with a norm that is not zero, have a quotient
    above the threshold.  (The hypothesis says that 0 is not above 0.85.) *)
Theorem semantic_answer_has_evidence
        (F : Type) (Fl : Float64 F) (self : CrisisDetector F) (text : string) :
  fgtb fzero fthreshold = false ->
  detect self text = Ok (true, semantic_reason) ->
  lexical_match self text = false /\
  exists model chunks score phrase,
    semantic_enabled self = Some model /\
    _chunk_text text default_window_size default_step = Ok chunks /\
    score_of model (combine (phrase_embeddings self) (semantic_phrases self))
      chunks score phrase /\
    fgtb score fthreshold = true.
Proof.
  intros Hzero Hdetect.
  destruct (lexical_match self text) eqn:Hlex.
  { unfold detect in Hdetect. rewrite Hlex in Hdetect. discriminate Hdetect. }
  split; [reflexivity|].
  destruct (semantic_enabled self) as [model|] eqn:Hmodel.
  2:{ rewrite (detect_lexical_miss self text Hlex), Hmodel in Hdetect. discriminate. }
  destruct (_chunk_text text default_window_size default_step) as [chunks|e] eqn:Hchunks.
  2:{ rewrite (detect_lexical_miss self text Hlex), Hmodel in Hdetect.
      unfold semantic_pass in Hdetect. rewrite Hchunks in Hdetect. discriminate. }
  rewrite (detect_of_scan self model text chunks Hlex Hmodel Hchunks) in Hdetect.
  destruct (scan_chunks model _ chunks scan_init) as [st|e] eqn:Hscan; [|discriminate].
  destruct (fgtb (max_score_overall st) fthreshold) eqn:Habove; [|discriminate].
  exists model, chunks, (max_score_overall st), (best_phrase st).
  repeat split; try assumption.
  destruct (scan_chunks_provenance model _ chunks _ _ Hscan) as [[Hmax _]|Hscore];
    [|exact Hscore].
  cbn in Hmax. rewrite <- Hmax, Hzero in Habove. discriminate.
Qed.

Lemma semantic_answer_has_evidence_witness :
  lexical_match mock_detector "Some user text" = false /\
  exists model chunks score phrase,
    semantic_enabled mock_detector = Some model /\
    _chunk_text "Some user text" default_window_size default_step = Ok chunks /\
    score_of model (combine (phrase_embeddings mock_detector) (semantic_phrases mock_detector))
      chunks score phrase /\
    fgtb score fthreshold = true.
Proof.
  apply (semantic_answer_has_evidence float ieee mock_detector "Some user text").
  - reflexivity.
  - vm_compute. reflexivity.
Defined.

Section ExactDetect.
Local Open Scope R_scope.

Lemma exact_fgtb (x y : R) : fgtb x y = true <-> y < x.
Proof.
  cbn. destruct (Rlt_dec y x); split; auto; discriminate.
Qed.

(** Over the reals the inner loop leaves a score that is at least the one
    it found and at least every quotient it computed. *)
Lemma exact_compare_phrases_max (v : list R) (n : R) (pairs : list (list R * string)) :
  forall st st',
    compare_phrases v n pairs st = Ok st' ->
    max_score_overall st <= max_score_overall st' /\
    forall p t d,
      In (p, t) pairs ->
      feqb (np_linalg_norm p) fzero = false ->
      np_dot v p = Ok d ->
      fdiv d (fmul n (np_linalg_norm p)) <= max_score_overall st'.
Proof.
  induction pairs as [|[q u] rest IH]; intros st st' Hrun; cbn [compare_phrases] in Hrun.
  - inversion Hrun; subst st'. split; [lra | intros p t d []].
  - destruct (feqb (np_linalg_norm q) fzero) eqn:Hq.
    + destruct (IH _ _ Hrun) as [Hmono Hall]. split; [exact Hmono|].
      intros p t d [E|Hin] Hp Hdot; [inversion E; subst; congruence|].
      now apply (Hall p t d).
    + destruct (np_dot v q) as [d0|e] eqn:Hd0; cbn [bind] in Hrun; [|discriminate].
      destruct (fgtb (fdiv d0 (fmul n (np_linalg_norm q))) (max_score_overall st)) eqn:Hgt.
      * apply exact_fgtb in Hgt.
        destruct (IH _ _ Hrun) as [Hmono Hall]. cbn [max_score_overall] in Hmono.
        split; [lra|].
        intros p t d [E|Hin] Hp Hdot; [|now apply (Hall p t d)].
        inversion E; subst p t. rewrite Hd0 in Hdot. inversion Hdot; subst d. exact Hmono.
      * assert (Hle : fdiv d0 (fmul n (np_linalg_norm q)) <= max_score_overall st).
        { destruct (Rle_or_lt (fdiv d0 (fmul n (np_linalg_norm q))) (max_score_overall st))
            as [Hle|Hlt]; [exact Hle|].
          apply exact_fgtb in Hlt. congruence. }
        destruct (IH _ _ Hrun) as [Hmono Hall]. split; [exact Hmono|].
        intros p t d [E|Hin] Hp Hdot; [|now apply (Hall p t d)].
        inversion E; subst p t. rewrite Hd0 in Hdot. inversion Hdot; subst d. lra.
Qed.

(** The same for the whole scan. *)
Lemma exact_scan_chunks_max (model : EmbeddingsModel R) (pairs : list (list R * string))
      (chunks : list string) :
  forall st st',
    scan_chunks model pairs chunks st = Ok st' ->
    max_score_overall st <= max_score_overall st' /\
    forall score t, score_of model pairs chunks score t -> score <= max_score_overall st'.
Proof.
  induction chunks as [|chunk rest IH]; intros st st' Hrun; cbn [scan_chunks] in Hrun.
  - inversion Hrun; subst st'. split; [lra|].
    intros score t (c & _ & _ & _ & [] & _).
  - destruct (embed_query model chunk) as [v|e] eqn:Hchunk; cbn [bind] in Hrun;
      [|discriminate].
    destruct (feqb (np_linalg_norm v) fzero) eqn:Hv.
    + destruct (IH _ _ Hrun) as [Hmono Hall]. cbn [max_score_overall] in Hmono.
      split; [exact Hmono|].
      intros score t (c & w & p & d & [E|Hin] & Hc & Hrest).
      * subst c. rewrite Hchunk in Hc. inversion Hc; subst w.
        destruct Hrest as (_ & Hw & _). congruence.
      * apply (Hall score t). exists c, w, p, d. split; [exact Hin|]. split; assumption.
    + destruct (compare_phrases v _ pairs _) as [st2|e2] eqn:Hcmp; cbn [bind] in Hrun;
        [|discriminate].
      destruct (exact_compare_phrases_max _ _ _ _ _ Hcmp) as [Hmono1 Hall1].
      cbn [max_score_overall] in Hmono1.
      destruct (IH _ _ Hrun) as [Hmono Hall]. split; [lra|].
      intros score t (c & w & p & d & [E|Hin] & Hc & Hrest).
      * subst c. rewrite Hchunk in Hc. inversion Hc; subst w.
        destruct Hrest as (Hp & _ & Hpn & Hdot & ->).
        pose proof (Hall1 p t d Hp Hpn Hdot). lra.
      * apply (Hall score t). exists c, w, p, d. split; [exact Hin|]. split; assumption.
Qed.


Lemma unit_provider_answers :
  provider_answers unit_model
    (combine (phrase_embeddings unit_detector) (semantic_phrases unit_detector))
    ["I feel hopeless"].
Proof.
  intros c _. exists [1]. split; [reflexivity|].
  intros p t [E|[]]. now inversion E.
Qed.


End ExactDetect.

(* ------------------------------------------------------------------ *)
(** ** [_chunk_text]: how many chunks, and how long *)

Lemma range_len_le (n step : nat) : 1 <= step -> range_len 0 n step <= n.
Proof.
  intros Hstep. unfold range_len. destruct n as [|n].
  - rewrite Nat.div_small; lia.
  - apply Nat.Div0.div_le_upper_bound.
    assert (n <= step * n) by nia. lia.
Qed.

(** The offsets of [range(0, n, step)] are below [n]. *)
Lemma range_offset_lt (n step k : nat) :
  1 <= step -> k < range_len 0 n step -> k * step < n.
Proof.
  intros Hstep Hk. unfold range_len in Hk.
  pose proof (Nat.div_mod_eq (n - 0 + (step - 1)) step) as Hdm.
  pose proof (Nat.mod_upper_bound (n - 0 + (step - 1)) step ltac:(lia)) as Hub.
  nia.
Qed.

Lemma slice_length {A : Type} (l : list A) (i w : nat) :
  length (slice l i (i + w)) = Nat.min w (length l - i).
Proof.
  unfold slice. rewrite length_firstn, length_skipn. f_equal. lia.
Qed.

Section WindowSizes.
Variables (words : list string) (window_size step : nat).

Let offsets_from (a m : nat) : list nat := map (fun k => 0 + k * step) (seq a m).

Lemma chunk_loop_length (m : nat) :
  forall a, length (chunk_loop words window_size (offsets_from a m)) <= m.
Proof.
  induction m as [|m IH]; intros a; [apply Nat.le_refl|].
  unfold offsets_from. cbn [seq map chunk_loop]. fold (offsets_from (S a) m).
  destruct (_ <=? _); cbn [length]; [lia|].
  specialize (IH (S a)). lia.
Qed.

(** Every chunk is the window at one of the offsets. *)
Lemma chunk_loop_In (m : nat) :
  forall a c,
    In c (chunk_loop words window_size (offsets_from a m)) ->
    exists k, a <= k < a + m /\
              c = join " " (slice words (k * step) (k * step + window_size)).
Proof.
  induction m as [|m IH]; intros a c Hin; [contradiction|].
  unfold offsets_from in Hin. cbn [seq map chunk_loop] in Hin.
  fold (offsets_from (S a) m) in Hin.
  assert (Hhead : forall c', join " " (slice words (0 + a * step) (0 + a * step + window_size)) = c' ->
                            exists k, a <= k < a + S m /\
                                 c' = join " " (slice words (k * step) (k * step + window_size))).
  { intros c' <-. exists a. split; [lia | reflexivity]. }
  destruct (_ <=? _).
  - destruct Hin as [E|[]]. now apply Hhead.
  - destruct Hin as [E|Hin]; [now apply Hhead|].
    destruct (IH (S a) c Hin) as (k & Hk & Hc). exists k. split; [lia | exact Hc].
Qed.

(** A chunk that is followed by another one does not reach the last word. *)
Lemma chunk_loop_not_last (m : nat) :
  forall a k,
    S k < length (chunk_loop words window_size (offsets_from a m)) ->
    (a + k) * step + window_size < length words.
Proof.
  induction m as [|m IH]; intros a k Hk; [cbn in Hk; lia|].
  unfold offsets_from in Hk. cbn [seq map chunk_loop] in Hk.
  fold (offsets_from (S a) m) in Hk.
  destruct (Nat.leb_spec (length words) (0 + a * step + window_size)) as [Hbreak|Hgo].
  - cbn [length] in Hk. lia.
  - cbn [length] in Hk. destruct k as [|k]; [lia|].
    specialize (IH (S a) k ltac:(lia)). lia.
Qed.

End WindowSizes.



(* ------------------------------------------------------------------ *)
(** ** What the providers send *)

Lemma to_number_plus (p : string) : prefix "+" (to_number p) = true.
Proof.
  unfold to_number. destruct (prefix "+" p) eqn:Hp; cbn [negb]; [exact Hp|].
  reflexivity.
Qed.

Ltac twilio_cases self data net :=
  unfold twilio_send_alert;
  destruct (truthy (account_sid self)) eqn:?Hsid; cbn [negb orb];
  [ destruct (truthy (auth_token self)) eqn:?Htok; cbn [negb orb];
    [ unfold_io;
      destruct (twilio_client net (fmt (account_sid self)) (fmt (auth_token self)))
        as [[]|?e] eqn:?Hclient; cbn;
      [ destruct (payload_get data "phone_number") as [?p|] eqn:?Hphone; cbn;
        [ destruct (messages_create net (messaging_service_sid self)
                      (payload_get data "message") (to_number p))
            as [?sid|?e] eqn:?Hcreate; cbn
        | ]
      | ]
    | unfold_io; cbn ]
  | unfold_io; cbn ].



Ltac telegram_cases self data net :=
  unfold telegram_send_alert;
  destruct (truthy (bot_token self)) eqn:?Htok; cbn [negb orb];
  [ destruct (truthy (chat_id self)) eqn:?Hchat; cbn [negb orb];
    [ unfold_io;
      destruct (requests_post net (base_url self) (fmt (chat_id self))
                  (payload_get data "message") "Markdown")
        as [[?status ?body]|?e] eqn:?Hpost; cbn [fst];
      [ destruct (Nat.eqb_spec status 200) as [?Hok|?Hbad]; cbn | cbn ]
    | unfold_io; cbn ]
  | unfold_io; cbn ].

(** The requests of [TelegramProvider.send_alert]: none when the token or
    the chat is missing; otherwise exactly one POST, to the [sendMessage]
    address of the bot, with the chat, the message of the payload and the
    parse mode [Markdown], whatever the answer is; and an answer with a
    status other than 200 makes the provider return [False]. *)
Theorem telegram_request_well_formed (self : TelegramProvider) (data : payload) (net : Network) :
  requests (snd (telegram_send_alert self data net))
  = (if truthy (bot_token self) && truthy (chat_id self)
     then [HttpPost (base_url self) (fmt (chat_id self)) (payload_get data "message")
             "Markdown"]
     else []) /\
  (forall status body,
      requests_post net (base_url self) (fmt (chat_id self)) (payload_get data "message")
        "Markdown" = Ok (status, body) ->
      status <> 200 ->
      fst (telegram_send_alert self data net) = Ok false).
Proof.
  split.
  - telegram_cases self data net; reflexivity.
  - intros status' body' Hpost' Hstatus.
    telegram_cases self data net; try reflexivity.
    inversion Hpost'. congruence.
Qed.

Lemma telegram_request_well_formed_witness :
  fst (telegram_send_alert {| bot_token := Some "bot"; chat_id := Some "42" |}
         [("message", Some "Help me")]
         {| twilio_client := fun _ _ => Ok tt;
            messages_create := fun _ _ _ => Ok "SM1";
            requests_post := fun _ _ _ _ => Ok (429, "Too Many Requests") |})
  = Ok false.
Proof.
  apply (proj2 (telegram_request_well_formed
                  {| bot_token := Some "bot"; chat_id := Some "42" |}
                  [("message", Some "Help me")]
                  {| twilio_client := fun _ _ => Ok tt;
                     messages_create := fun _ _ _ => Ok "SM1";
                     requests_post := fun _ _ _ _ => Ok (429, "Too Many Requests") |})
           429 "Too Many Requests").
  - reflexivity.
  - discriminate.
Defined.

(* ------------------------------------------------------------------ *)
(** ** The dispatcher: the last resort and the requests *)

Lemma twilio_trace_quiet (self : TwilioProvider) (data : payload) (net : Network) :
  existsb is_critical (snd (twilio_send_alert self data net)) = false /\
  filter is_http_post (snd (twilio_send_alert self data net)) = [] /\
  length (filter is_twilio_request (snd (twilio_send_alert self data net))) <= 1.
Proof.
  twilio_cases self data net; repeat split; cbn; lia.
Qed.

Lemma telegram_trace_quiet (self : TelegramProvider) (data : payload) (net : Network) :
  existsb is_critical (snd (telegram_send_alert self data net)) = false /\
  filter is_twilio_request (snd (telegram_send_alert self data net)) = [] /\
  length (filter is_http_post (snd (telegram_send_alert self data net))) <= 1.
Proof.
  telegram_cases self data net; repeat split; cbn; lia.
Qed.

(** [CRITICAL] is logged exactly when neither channel delivered: the
    primary did not report success and the backup, called after it,
    did not either.  One call of [trigger_alert] sends at most one request
    to Twilio and at most one to Telegram, and none to Telegram when the
    primary reported success. *)
Theorem critical_iff_both_channels_failed
        (self : AlertDispatcher TwilioProvider TelegramProvider)
        (user_name reason location short_message : string) (net : Network) :
  let run := trigger_alert self user_name reason location short_message net in
  existsb is_critical (snd run)
  = negb (primary_reports_success self user_name reason location short_message net)
    && negb (backup_reports_success self user_name reason location short_message net) /\
  length (filter is_twilio_request (snd run)) <= 1 /\
  length (filter is_http_post (snd run)) <= 1 /\
  (primary_reports_success self user_name reason location short_message net = true ->
   filter is_http_post (snd run) = []).
Proof.
  intros run. subst run.
  destruct (twilio_send_alert_returns (sms_provider self)
              (sms_data self user_name reason location short_message) net)
    as (b1 & t1 & Hsms & _).
  destruct (telegram_send_alert_returns (telegram_provider self)
              (telegram_data user_name reason location short_message) net)
    as (b2 & t2 & Htg & _).
  destruct (twilio_trace_quiet (sms_provider self)
              (sms_data self user_name reason location short_message) net)
    as (Hc1 & Hp1 & Hr1).
  destruct (telegram_trace_quiet (telegram_provider self)
              (telegram_data user_name reason location short_message) net)
    as (Hc2 & Hr2 & Hp2).
  rewrite Hsms in Hc1, Hp1, Hr1. rewrite Htg in Hc2, Hr2, Hp2. cbn [snd] in *.
  assert (Hsms' : send_alert (sms_provider self)
                    (sms_data self user_name reason location short_message) net
                  = (Ok b1, t1)) by exact Hsms.
  assert (Htg' : send_alert (telegram_provider self)
                   (telegram_data user_name reason location short_message) net
                 = (Ok b2, t2)) by exact Htg.
  unfold primary_reports_success, backup_reports_success. rewrite Hsms', Htg'. cbn [fst].
  destruct (truthy (helpline_number self)) eqn:Hline; cbn [andb].
  - destruct b1.
    + rewrite (trigger_alert_primary_success self user_name reason location short_message
                 net t1 Hline Hsms').
      cbn [fst snd]. rewrite !existsb_app, !filter_app, !length_app, Hc1, Hp1.
      cbn. repeat split; try reflexivity; lia.
    + rewrite (trigger_alert_primary_failure self user_name reason location short_message
                 net t1 b2 t2 Hline Hsms' Htg').
      cbn [fst snd]. rewrite !existsb_app, !filter_app, !length_app, Hc1, Hp1, Hc2, Hr2.
      destruct b2; cbn; rewrite ?Nat.add_0_r; repeat split; try reflexivity;
        try lia; discriminate.
  - rewrite (trigger_alert_unconfigured self user_name reason location short_message
               net b2 t2 Hline Htg').
    cbn [fst snd].
    change (Logged WARNING :: ?l) with ([Logged WARNING] ++ l).
    rewrite !existsb_app, !filter_app, !length_app, Hc2, Hr2.
    destruct b2; cbn; rewrite ?Nat.add_0_r; repeat split; try reflexivity;
      try lia; discriminate.
Qed.

Lemma critical_iff_both_channels_failed_witness :
  filter is_http_post
    (snd (trigger_alert (configured_dispatcher (Some "1234567890"))
            "Rishabh" "Test Reason" "Pune" "Help me" sms_up)) = [].
Proof.
  apply (proj2 (proj2 (proj2
           (critical_iff_both_channels_failed (configured_dispatcher (Some "1234567890"))
              "Rishabh" "Test Reason" "Pune" "Help me" sms_up)))).
  reflexivity.
Defined.

Lemma requests_app (a b : list event) : requests (a ++ b) = requests a ++ requests b.
Proof. unfold requests. apply filter_app. Qed.

(** The requests of one alert, in order: those of the primary provider for
    the SMS payload when a helpline number is configured, then those of the
    backup provider for the Telegram payload unless the primary reported
    success; nothing else leaves the process. *)
Theorem alert_requests_in_order
        (self : AlertDispatcher TwilioProvider TelegramProvider)
        (user_name reason location short_message : string) (net : Network) :
  requests (snd (trigger_alert self user_name reason location short_message net))
  = (if truthy (helpline_number self)
     then requests (snd (send_alert (sms_provider self)
                           (sms_data self user_name reason location short_message) net))
     else [])
    ++ (if primary_reports_success self user_name reason location short_message net
        then []
        else requests (snd (send_alert (telegram_provider self)
                              (telegram_data user_name reason location short_message) net))).
Proof.
  destruct (twilio_send_alert_returns (sms_provider self)
              (sms_data self user_name reason location short_message) net)
    as (b1 & t1 & Hsms & _).
  destruct (telegram_send_alert_returns (telegram_provider self)
              (telegram_data user_name reason location short_message) net)
    as (b2 & t2 & Htg & _).
  assert (Hsms' : send_alert (sms_provider self)
                    (sms_data self user_name reason location short_message) net
                  = (Ok b1, t1)) by exact Hsms.
  assert (Htg' : send_alert (telegram_provider self)
                   (telegram_data user_name reason location short_message) net
                 = (Ok b2, t2)) by exact Htg.
  unfold primary_reports_success. rewrite Hsms', Htg'. cbn [fst snd].
  destruct (truthy (helpline_number self)) eqn:Hline; cbn [andb].
  - destruct b1.
    + rewrite (trigger_alert_primary_success self user_name reason location short_message
                 net t1 Hline Hsms').
      cbn [snd]. rewrite !requests_app. cbn. now rewrite !app_nil_r.
    + rewrite (trigger_alert_primary_failure self user_name reason location short_message
                 net t1 b2 t2 Hline Hsms' Htg').
      cbn [snd]. rewrite !requests_app. destruct b2; cbn; now rewrite ?app_nil_r.
  - rewrite (trigger_alert_unconfigured self user_name reason location short_message
               net b2 t2 Hline Htg').
    cbn [snd]. change (Logged WARNING :: ?l) with ([Logged WARNING] ++ l).
    rewrite !requests_app. destruct b2; cbn; now rewrite ?app_nil_r.
Qed.

(** Twilio is down: the SMS request goes out first, to the helpline number
    with the country code, and the Telegram request follows. *)
Example alert_requests_when_sms_down :
  requests (snd (trigger_alert (configured_dispatcher (Some "1234567890"))
                   "Rishabh" "Test Reason" "Pune" "Help me" sms_down))
  = [ TwilioCreate (Some "MG1")
        (Some (sms_message "Rishabh" "Test Reason" "Pune" "Help me")) "+911234567890";
      HttpPost "https://api.telegram.org/botbot/sendMessage" "42"
        (Some (telegram_message "Rishabh" "Test Reason" "Pune" "Help me")) "Markdown" ].
Proof. vm_compute. reflexivity. Qed.

(* ------------------------------------------------------------------ *)
(** ** The cosine similarity in exact arithmetic: symmetry and scale *)

Section ExactScale.
Local Open Scope R_scope.

Lemma rdot_comm (a : list R) : forall b, rdot a b = rdot b a.
Proof.
  induction a as [|x a IH]; intros [|y b]; cbn [rdot]; try reflexivity.
  rewrite IH. ring.
Qed.

Lemma exact_np_dot (a b : list R) :
  np_dot a b = if (length a =? length b)%nat then Ok (rdot a b) else Raise ValueError.
Proof.
  unfold np_dot. destruct (_ =? _)%nat; [|reflexivity].
  rewrite sum_products_rdot. cbn. f_equal. lra.
Qed.



Lemma rdot_scale_l (k : R) (a : list R) :
  forall b, rdot (map (Rmult k) a) b = k * rdot a b.
Proof.
  induction a as [|x a IH]; intros [|y b]; cbn [rdot map]; try lra.
  rewrite IH. ring.
Qed.

Lemma exact_norm_scale (k : R) (v : list R) :
  0 <= k -> np_linalg_norm (map (Rmult k) v) = k * np_linalg_norm v.
Proof.
  intros Hk. rewrite !exact_norm.
  rewrite rdot_scale_l, (rdot_comm v), rdot_scale_l.
  replace (k * (k * rdot v v)) with ((k * k) * rdot v v) by ring.
  rewrite sqrt_mult; [|nra | apply rdot_self_nonneg].
  now rewrite sqrt_square.
Qed.

Lemma exact_feqb_scale (k x : R) : 0 < k -> feqb (k * x) fzero = feqb x fzero.
Proof.
  intros Hk. cbn. destruct (Req_dec_T (k * x) 0) as [E|E], (Req_dec_T x 0) as [E'|E'];
    try reflexivity; exfalso; nra.
Qed.

Lemma exact_compare_phrases_scale (k : R) (v : list R) (pairs : list (list R * string)) :
  0 < k ->
  np_linalg_norm v <> 0 ->
  forall st,
    compare_phrases (map (Rmult k) v) (k * np_linalg_norm v) pairs st
    = compare_phrases v (np_linalg_norm v) pairs st.
Proof.
  intros Hk Hn. induction pairs as [|[q u] rest IH]; intros st; [reflexivity|].
  cbn [compare_phrases].
  destruct (feqb (np_linalg_norm q) fzero) eqn:Hq; [apply IH|].
  apply exact_feqb_false in Hq.
  rewrite !exact_np_dot, length_map.
  destruct (_ =? _)%nat; cbn [bind]; [|reflexivity].
  rewrite rdot_scale_l.
  replace (fdiv (k * rdot v q) (fmul (k * np_linalg_norm v) (np_linalg_norm q)))
    with (fdiv (rdot v q) (fmul (np_linalg_norm v) (np_linalg_norm q)))
    by (cbn [fdiv fmul exact]; field; repeat split; lra).
  destruct (fgtb _ _); apply IH.
Qed.

Lemma exact_scan_chunks_scale (k : R) (model : EmbeddingsModel R)
      (pairs : list (list R * string)) (chunks : list string) :
  0 < k ->
  forall st,
    scan_chunks (scaled_model k model) pairs chunks st
    = scan_chunks model pairs chunks st.
Proof.
  intros Hk. induction chunks as [|chunk rest IH]; intros st; [reflexivity|].
  cbn [scan_chunks scaled_model embed_query].
  destruct (embed_query model chunk) as [v|e]; cbn [bind]; [|reflexivity].
  rewrite (exact_norm_scale k v) by lra. rewrite (exact_feqb_scale k _ Hk).
  destruct (feqb (np_linalg_norm v) fzero) eqn:Hv; [apply IH|].
  apply exact_feqb_false in Hv.
  rewrite (exact_compare_phrases_scale k v pairs Hk Hv).
  destruct (compare_phrases v _ pairs _); cbn [bind]; [apply IH | reflexivity].
Qed.



End ExactScale.
